(** * manim-slides: the playback state machine, the sequencer and the
      slide-range validator

    A shallow embedding of [manim_presentation/present.py] (classes
    [Presentation] and [Display], functions [fix_time]) and of the
    [SlideConfig] validators of [manim_slides/config.py], followed by the
    properties of the specification that concern them.

    Conventions of the embedding.
    - Python methods that mutate [self] are functions from the object to a
      [result] carrying the new object; a raised exception is [Raise e].
      Nothing in the program catches exceptions, so the object left behind
      by a raising call is never observed and is not modelled.
    - Python list indexing is [getitem]: negative indices count from the
      end and anything outside [-len, len) raises [IndexError].
    - A slide is the JSON dictionary of the deck file; the key
      ["terminated"] may be absent ([None]) since only the presenter
      adds it.
    - [cv2.VideoCapture] is an external collaborator.  Its contract
      (read the next frame or report exhaustion, seek to the first frame,
      report a frame rate) is the record [VideoCapture].
    - A Python [float] is an IEEE 754 binary64 number, [spec_float] with
      precision 53 and maximal exponent 1024; its division rounds to
      nearest, ties to even. *)

From Stdlib Require Import ZArith String Bool Lia.
From Stdlib Require Import Floats.SpecFloat.
From stdpp Require Import base list gmap.

Local Open Scope Z_scope.

(** ** Exceptions and results *)

Inductive exn : Type :=
| AttributeError
| IndexError
| KeyError
| ZeroDivisionError
| SystemExit
| OverflowError
| ValueError (msg : string)
| ValidationError (errors : list string).

Inductive result (A : Type) : Type :=
| Ok (a : A)
| Raise (e : exn).

Arguments Ok {A} a.
Arguments Raise {A} e.

Definition rbind {A B} (r : result A) (k : A -> result B) : result B :=
  match r with
  | Ok a => k a
  | Raise e => Raise e
  end.

Notation "x <- r ;; k" := (rbind r (fun x => k))
  (at level 100, r at next level, right associativity).

Definition is_ok {A} (r : result A) : Prop := exists a, r = Ok a.

(** ** Python list indexing *)

(** The position designated by the Python index [i] in a list of length
    [n], if any. *)
Definition py_index (n : nat) (i : Z) : option nat :=
  let len := Z.of_nat n in
  if (0 <=? i) && (i <? len) then Some (Z.to_nat i)
  else if (- len <=? i) && (i <? 0) then Some (Z.to_nat (len + i))
  else None.

(** [l[i]] *)
Definition getitem {A} (l : list A) (i : Z) : result A :=
  match py_index (length l) i with
  | Some k => match l !! k with Some x => Ok x | None => Raise IndexError end
  | None => Raise IndexError
  end.

(** The in-place change [f] applied to the object [l[i]]. *)
Definition moditem {A} (f : A -> A) (l : list A) (i : Z) : result (list A) :=
  match py_index (length l) i with
  | Some k => match l !! k with
              | Some x => Ok (<[k := f x]> l)
              | None => Raise IndexError
              end
  | None => Raise IndexError
  end.

(** ** present.py *)

Module Present.

Inductive State : Type := PLAYING | PAUSED | WAIT | END.

Definition State_eqb (a b : State) : bool :=
  match a, b with
  | PLAYING, PLAYING | PAUSED, PAUSED | WAIT, WAIT | END, END => true
  | _, _ => false
  end.

(** [Config]: the key codes. *)
Definition QUIT_KEY : Z := 113.
Definition CONTINUE_KEY : Z := 83.
Definition BACK_KEY : Z := 81.
Definition REWIND_KEY : Z := 114.
Definition PLAYPAUSE_KEY : Z := 32.

(** [fix_time] *)
Definition fix_time (x : Z) : Z := if 0 <? x then x else 1.

(** Frame buffers are opaque to the state machine; a number names one. *)
Definition frame : Type := N.

(** Python floats: the binary64 format, the float an [int] converts
    to, and the division [x / y] of two floats that are not zero. *)
Definition prec : Z := 53.
Definition emax : Z := 1024.

Definition float_of_Z (z : Z) : spec_float := binary_normalize prec emax z 0 false.

Definition float_div (x y : spec_float) : spec_float := SFdiv prec emax x y.

(** [math.ceil] on a float: the least integer not below it;
    [ValueError] on NaN and [OverflowError] on an infinity. *)
Definition math_ceil (x : spec_float) : result Z :=
  match x with
  | S754_nan => Raise (ValueError "cannot convert float NaN to integer")
  | S754_infinity _ => Raise OverflowError
  | S754_zero _ => Ok 0
  | S754_finite s m e =>
      let n := if s then Z.neg m else Z.pos m in
      Ok (if 0 <=? e then n * 2 ^ e else - ((- n) / 2 ^ (- e)))
  end.

(** The contract of [cv2.VideoCapture]: the frames of the file, the
    decode position, the frame rate (a float). *)
Record VideoCapture : Type := mkCap {
  frames : list frame;
  pos_frames : nat;
  prop_fps : spec_float
}.

(** [cap.read()]: the next frame and a capture advanced by one, or
    nothing and the capture as it was. *)
Definition read (c : VideoCapture) : option frame * VideoCapture :=
  match frames c !! pos_frames c with
  | Some f => (Some f, mkCap (frames c) (S (pos_frames c)) (prop_fps c))
  | None => (None, c)
  end.

(** [cap.set(cv2.CAP_PROP_POS_FRAMES, 0)] *)
Definition seek0 (c : VideoCapture) : VideoCapture :=
  mkCap (frames c) 0 (prop_fps c).

Definition exhausted (c : VideoCapture) : Prop := frames c !! pos_frames c = None.

(** A slide dictionary of the deck file. *)
Record Slide : Type := mkSlide {
  type : string;
  start_animation : Z;
  end_animation : Z;
  number : Z;
  terminated : option bool
}.

Definition set_type (t : string) (s : Slide) : Slide :=
  mkSlide t (start_animation s) (end_animation s) (number s) (terminated s).

Definition set_terminated (b : bool) (s : Slide) : Slide :=
  mkSlide (type s) (start_animation s) (end_animation s) (number s) (Some b).

(** [slide["terminated"]] *)
Definition get_terminated (s : Slide) : result bool :=
  match terminated s with
  | Some b => Ok b
  | None => Raise KeyError
  end.

(** The attributes of a [Presentation]. [lastframe] is [None] as long as
    the attribute has not been assigned. *)
Record Presentation : Type := mkPresentation {
  slides : list Slide;
  caps : list VideoCapture;
  current_animation : Z;
  current_slide_i : Z;
  lastframe : option frame
}.

Definition set_slides (l : list Slide) (p : Presentation) : Presentation :=
  mkPresentation l (caps p) (current_animation p) (current_slide_i p) (lastframe p).
Definition set_caps (l : list VideoCapture) (p : Presentation) : Presentation :=
  mkPresentation (slides p) l (current_animation p) (current_slide_i p) (lastframe p).
Definition set_current_animation (a : Z) (p : Presentation) : Presentation :=
  mkPresentation (slides p) (caps p) a (current_slide_i p) (lastframe p).
Definition set_current_slide_i (i : Z) (p : Presentation) : Presentation :=
  mkPresentation (slides p) (caps p) (current_animation p) i (lastframe p).
Definition set_lastframe (f : option frame) (p : Presentation) : Presentation :=
  mkPresentation (slides p) (caps p) (current_animation p) (current_slide_i p) f.

(** [self.lastframe] *)
Definition get_lastframe (p : Presentation) : result frame :=
  match lastframe p with
  | Some f => Ok f
  | None => Raise AttributeError
  end.

(** property [current_slide] *)
Definition current_slide (p : Presentation) : result Slide :=
  getitem (slides p) (current_slide_i p).

(** property [current_cap] *)
Definition current_cap (p : Presentation) : result VideoCapture :=
  getitem (caps p) (current_animation p).

(** property [fps] *)
Definition fps (p : Presentation) : result spec_float :=
  c <- current_cap p ;; Ok (prop_fps c).

(** [self.current_cap.set(cv2.CAP_PROP_POS_FRAMES, 0)] *)
Definition current_cap_seek0 (p : Presentation) : result Presentation :=
  cs <- moditem seek0 (caps p) (current_animation p) ;;
  Ok (set_caps cs p).

(** [reset] *)
Definition reset (p : Presentation) : result Presentation :=
  let p := set_current_animation 0 p in
  let p := set_current_slide_i 0 p in
  ss <- moditem (set_terminated false) (slides p) (-1) ;;
  Ok (set_slides ss p).

(** [rewind] *)
Definition rewind (p : Presentation) : result Presentation :=
  s <- current_slide p ;;
  let p := set_current_animation (start_animation s) p in
  current_cap_seek0 p.

(** [next] *)
Definition next (p : Presentation) : result Presentation :=
  s <- current_slide p ;;
  if (type s =? "last")%string then
    ss <- moditem (set_terminated true) (slides p) (current_slide_i p) ;;
    Ok (set_slides ss p)
  else
    let p := set_current_slide_i
               (Z.min (Z.of_nat (length (slides p)) - 1) (current_slide_i p + 1)) p in
    rewind p.

(** [prev] *)
Definition prev (p : Presentation) : result Presentation :=
  let p := set_current_slide_i (Z.max 0 (current_slide_i p - 1)) p in
  rewind p.

(** [__init__]: [ss] and [files] are [config["slides"]] and
    [config["files"]]; [open] stands for [cv2.VideoCapture(f)]. *)
Definition init (open : string -> VideoCapture)
    (ss : list Slide) (files : list string) : result Presentation :=
  let p := mkPresentation ss [] 0 0 None in
  p <- reset p ;;
  let p := set_caps (open <$> files) p in
  ss <- moditem (set_type "last"%string) (slides p) (-1) ;;
  let p := set_slides ss p in
  ss <- moditem (set_terminated false) (slides p) (-1) ;;
  Ok (set_slides ss p).

(** [update_state]: the frame to show, the new state and the object. *)
Definition update_state (state : State) (p : Presentation)
    : result (frame * State * Presentation) :=
  c <- current_cap p ;;
  let '(still_playing, c') := read c in
  cs <- moditem (fun _ => c') (caps p) (current_animation p) ;;
  let p := set_caps cs p in
  let p := match still_playing with
           | Some f => set_lastframe (Some f) p
           | None => p
           end in
  if State_eqb state WAIT || State_eqb state PAUSED then
    f <- get_lastframe p ;; Ok (f, state, p)
  else
    s <- current_slide p ;;
    ended <- (if (type s =? "last")%string then get_terminated s else Ok false) ;;
    if ended then
      f <- get_lastframe p ;; Ok (f, END, p)
    else
      sp <-
        (match still_playing with
         | Some _ => Ok (state, p)
         | None =>
           if end_animation s =? current_animation p + 1 then
             if (type s =? "slide")%string then Ok (WAIT, p)
             else if (type s =? "loop")%string then
               let p := set_current_animation (start_animation s) p in
               p <- rewind p ;; Ok (PLAYING, p)
             else if (type s =? "last")%string then Ok (WAIT, p)
             else Ok (state, p)
           else if (type s =? "last")%string && (end_animation s =? current_animation p) then
             Ok (WAIT, p)
           else
             let p := set_current_animation (current_animation p + 1) p in
             p <- current_cap_seek0 p ;; Ok (state, p)
         end) ;;
      let '(state, p) := sp in
      f <- get_lastframe p ;; Ok (f, state, p).

(** The attributes of a [Display]; [shown_frame] is its [lastframe]
    ([None] is Python's [None]). *)
Record Display : Type := mkDisplay {
  presentations : list Presentation;
  start_paused : bool;
  state : State;
  shown_frame : option frame;
  current_presentation_i : Z;
  lag : Z;
  last_time : Z
}.

Definition set_presentations (ps : list Presentation) (d : Display) : Display :=
  mkDisplay ps (start_paused d) (state d) (shown_frame d)
            (current_presentation_i d) (lag d) (last_time d).
Definition set_start_paused (b : bool) (d : Display) : Display :=
  mkDisplay (presentations d) b (state d) (shown_frame d)
            (current_presentation_i d) (lag d) (last_time d).
Definition set_state (st : State) (d : Display) : Display :=
  mkDisplay (presentations d) (start_paused d) st (shown_frame d)
            (current_presentation_i d) (lag d) (last_time d).
Definition set_shown_frame (f : option frame) (d : Display) : Display :=
  mkDisplay (presentations d) (start_paused d) (state d) f
            (current_presentation_i d) (lag d) (last_time d).
Definition set_current_presentation_i (i : Z) (d : Display) : Display :=
  mkDisplay (presentations d) (start_paused d) (state d) (shown_frame d)
            i (lag d) (last_time d).
Definition set_clock (l t : Z) (d : Display) : Display :=
  mkDisplay (presentations d) (start_paused d) (state d) (shown_frame d)
            (current_presentation_i d) l t.

(** [Display.__init__], with [t] the reading of [now()]. *)
Definition Display_init (ps : list Presentation) (paused : bool) (t : Z) : Display :=
  mkDisplay ps paused PLAYING None 0 0 t.

(** property [current_presentation] *)
Definition current_presentation (d : Display) : result Presentation :=
  getitem (presentations d) (current_presentation_i d).

(** A method [m] called on [self.current_presentation]. *)
Definition on_current_presentation (m : Presentation -> result Presentation)
    (d : Display) : result Display :=
  p <- current_presentation d ;;
  p' <- m p ;;
  ps <- moditem (fun _ => p') (presentations d) (current_presentation_i d) ;;
  Ok (set_presentations ps d).

(** [quit]: [sys.exit()] *)
Definition quit {A} (d : Display) : result A := Raise SystemExit.

(** [math.ceil(1000 / fps)]: the integer 1000 is converted to a float,
    the division raises on a zero of either sign and is otherwise the
    rounded float division, and [math.ceil] is taken of its result. *)
Definition sleep_time_of (r : spec_float) : result Z :=
  match r with
  | S754_zero _ => Raise ZeroDivisionError
  | _ => math_ceil (float_div (float_of_Z 1000) r)
  end.

(** The argument of the single [cv2.waitKey] of a tick. *)
Definition wait_budget (d : Display) : result Z :=
  p <- current_presentation d ;;
  r <- fps p ;;
  sleep_time <- sleep_time_of r ;;
  Ok (fix_time (sleep_time - lag d)).

(** The dispatch of [handle_key] on [key], the masked answer of
    [cv2.waitKey]. *)
Definition dispatch_key (key : Z) (d : Display) : result Display :=
  if key =? QUIT_KEY then quit d
  else if State_eqb (state d) PLAYING && (key =? PLAYPAUSE_KEY) then
    Ok (set_state PAUSED d)
  else if State_eqb (state d) PAUSED && (key =? PLAYPAUSE_KEY) then
    Ok (set_state PLAYING d)
  else if State_eqb (state d) WAIT
          && ((key =? CONTINUE_KEY) || (key =? PLAYPAUSE_KEY)) then
    d <- on_current_presentation next d ;;
    Ok (set_state PLAYING d)
  else if State_eqb (state d) PLAYING && (key =? CONTINUE_KEY) then
    on_current_presentation next d
  else if key =? BACK_KEY then
    p <- current_presentation d ;;
    if current_slide_i p =? 0 then
      let d := set_current_presentation_i
                 (Z.max 0 (current_presentation_i d - 1)) d in
      d <- on_current_presentation reset d ;;
      Ok (set_state PLAYING d)
    else
      d <- on_current_presentation prev d ;;
      Ok (set_state PLAYING d)
  else if key =? REWIND_KEY then
    d <- on_current_presentation rewind d ;;
    Ok (set_state PLAYING d)
  else Ok d.

(** [handle_key]: the wait handed to [cv2.waitKey] and the object after
    the key it answered has been handled. *)
Definition handle_key (key : Z) (d : Display) : result (Z * Display) :=
  w <- wait_budget d ;;
  d <- dispatch_key key d ;;
  Ok (w, d).

(** [show_video], with [t1] and [t2] the two readings of [now()]. *)
Definition show_video (t1 t2 : Z) (d : Display) : Display :=
  set_clock (t1 - last_time d) t2 d.

(** [show_info] only reads; it raises when what it prints is missing. *)
Definition show_info (d : Display) : result unit :=
  p <- current_presentation d ;;
  _ <- current_slide p ;;
  Ok tt.

(** One iteration of the loop of [run]. *)
Definition tick (key t1 t2 : Z) (d : Display) : result Display :=
  p <- current_presentation d ;;
  r <- update_state (state d) p ;;
  let '(f, st, p') := r in
  ps <- moditem (fun _ => p') (presentations d) (current_presentation_i d) ;;
  let d := set_state st (set_shown_frame (Some f) (set_presentations ps d)) in
  let d := if State_eqb (state d) PLAYING || State_eqb (state d) PAUSED then
             if start_paused d then set_start_paused false (set_state PAUSED d)
             else d
           else d in
  d <- (if State_eqb (state d) END then
          if current_presentation_i d =? Z.of_nat (length (presentations d)) - 1
          then quit d
          else Ok (set_state PLAYING
                     (set_current_presentation_i (current_presentation_i d + 1) d))
        else Ok d) ;;
  wd <- handle_key key d ;;
  let d := show_video t1 t2 (snd wd) in
  _ <- show_info d ;;
  Ok d.

End Present.

(** ** config.py: the validators of [SlideConfig] *)

Module Config.

(** [SlideType], a string enumeration: the strings that are a value of
    it. *)
Module SlideType.
Inductive t : Type := slide | loop | last.

Definition of_string (s : string) : option t :=
  if (s =? "slide")%string then Some slide
  else if (s =? "loop")%string then Some loop
  else if (s =? "last")%string then Some last
  else None.
End SlideType.

(** The five values of a [SlideConfig].  As handed to the validators,
    [type] is the string of the deck file ([None] when the key is
    missing) and [terminated] is [None] when the key is missing, in which
    case the default [False] applies; the three integers are given as
    integers.  The validated object carries the same five values. *)
Record SlideConfig : Type := slide_config {
  type : option string;
  start_animation : Z;
  end_animation : Z;
  number : Z;
  terminated : option bool
}.

(** A slide of type ["slide"], not terminated, from its three integers. *)
Definition mkSlideConfig (s e n : Z) : SlideConfig :=
  slide_config (Some "slide"%string) s e n (Some false).

Definition msg_no_animation : string :=
  "You have to play at least one animation (e.g., `self.wait()`) before pausing. If you want to start paused, use the approriate command-line option when presenting. IMPORTANT: when using ManimGL, `self.wait()` is not considered to be an animation, so prefer to directly use `self.play(...)`.".

Definition msg_not_before : string :=
  "Start animation index must be strictly lower than end animation index".

(** [index_is_posint] *)
Definition index_is_posint (v : Z) : result Z :=
  if v <? 0 then
    Raise (ValueError "Animation index (start or end) cannot be negative")
  else Ok v.

(** [number_is_strictly_posint] *)
Definition number_is_strictly_posint (v : Z) : result Z :=
  if v <=? 0 then Raise (ValueError "Slide number cannot be negative or zero")
  else Ok v.

(** [start_animation_is_before_end] *)
Definition start_animation_is_before_end (values : SlideConfig) : result SlideConfig :=
  if start_animation values >=? end_animation values then
    if (start_animation values =? end_animation values)
       && (end_animation values =? 0)
    then Raise (ValueError msg_no_animation)
    else Raise (ValueError msg_not_before)
  else Ok values.

(** What pydantic says of a [type] that is missing or no [SlideType]. *)
Definition type_errors (t : option string) : list string :=
  match t with
  | None => ["Field required"%string]
  | Some s =>
      match SlideType.of_string s with
      | Some _ => []
      | None => ["Input should be 'slide', 'loop' or 'last'"%string]
      end
  end.

(** The message a field validator contributes when it raises. *)
Definition field_errors {A} (r : result A) : list string :=
  match r with
  | Raise (ValueError msg) => [msg]
  | _ => []
  end.

(** Validation of one slide.  The model validator of mode "before" runs
    first and its error ends the validation.  Then every field is
    validated, in the order of the fields, and the failures are reported
    together in one [ValidationError]; without any, the slide is
    returned with [terminated] filled in. *)
Definition validate (values : SlideConfig) : result SlideConfig :=
  values <- start_animation_is_before_end values ;;
  let errors :=
    type_errors (type values)
    ++ field_errors (index_is_posint (start_animation values))
    ++ field_errors (index_is_posint (end_animation values))
    ++ field_errors (number_is_strictly_posint (number values)) in
  match errors with
  | [] => Ok (slide_config (type values) (start_animation values)
                (end_animation values) (number values)
                (Some (default false (terminated values))))
  | _ => Raise (ValidationError errors)
  end.

(** [SlideConfig.slides_slice] applied to a list: [l[start:end]], with
    Python's treatment of bounds that are negative or too large. *)
Definition slice_bound (n : nat) (i : Z) : nat :=
  if i <? 0 then Z.to_nat (Z.max 0 (i + Z.of_nat n))
  else Z.to_nat (Z.min i (Z.of_nat n)).

Definition py_slice {A} (l : list A) (a b : Z) : list A :=
  let lo := slice_bound (length l) a in
  let hi := slice_bound (length l) b in
  take (hi - lo) (drop lo l).

Definition slides_slice {A} (s : SlideConfig) (l : list A) : list A :=
  py_slice l (start_animation s) (end_animation s).

(** [PresentationConfig], its slides and files. *)
Record PresentationConfig : Type := mkPresentationConfig {
  slides : list SlideConfig;
  files : list string
}.

(** The loop of [animation_indices_match_files]; [describe] renders the
    message of the error from the files and the offending slide. *)
Fixpoint check_slides (describe : list string -> SlideConfig -> string)
    (fs : list string) (ss : list SlideConfig) : result unit :=
  match ss with
  | [] => Ok tt
  | slide :: rest =>
      if end_animation slide >? Z.of_nat (length fs)
      then Raise (ValueError (describe fs slide))
      else check_slides describe fs rest
  end.

(** [animation_indices_match_files] *)
Definition animation_indices_match_files
    (describe : list string -> SlideConfig -> string)
    (config : PresentationConfig) : result PresentationConfig :=
  _ <- check_slides describe (files config) (slides config) ;;
  Ok config.

(** [Key]: a set of key codes and an optional name. *)
Record Key : Type := mkKey {
  ids : gset Z;
  name : option string
}.

(** [Key.ids_is_non_empty_set] *)
Definition ids_is_non_empty_set (s : gset Z) : result (gset Z) :=
  if (size s <=? 0)%nat then Raise (ValueError "Key's ids must be a non-empty set")
  else Ok s.

(** [Key.set_ids] *)
Definition set_ids (l : list Z) (k : Key) : Key :=
  mkKey (list_to_set l) (name k).


(** The loop of [ids_are_unique_across_keys], [seen] being the codes
    gathered so far. *)
Fixpoint unique_from (seen : gset Z) (keys : list Key) : result unit :=
  match keys with
  | [] => Ok tt
  | key :: rest =>
      if negb (size (seen ∩ ids key) =? 0)%nat then
        Raise (ValueError "Two or more keys share a common key code: please make sure each key has distinct key codes")
      else unique_from (seen ∪ ids key) rest
  end.

(** [Config.ids_are_unique_across_keys], on the keys handed in. *)
Definition ids_are_unique_across_keys (values : list Key) : result (list Key) :=
  _ <- unique_from ∅ values ;;
  Ok values.

(** [Config]: one key per command. *)
Record Config : Type := mkConfig {
  QUIT : Key;
  CONTINUE : Key;
  BACK : Key;
  REVERSE : Key;
  REWIND : Key;
  PLAY_PAUSE : Key;
  HIDE_MOUSE : Key
}.





End Config.

(** ** Predicates used in the statements *)

Module Deck.
Import Present.

(** The segment the cursor designates: position [k] of [caps], holding [c]. *)
Definition cap_at (p : Presentation) (i : Z) (k : nat) (c : VideoCapture) : Prop :=
  py_index (length (caps p)) i = Some k /\ caps p !! k = Some c.

(** The slide the index [i] designates: position [k] of [slides], holding [s]. *)
Definition slide_at (p : Presentation) (i : Z) (k : nat) (s : Slide) : Prop :=
  py_index (length (slides p)) i = Some k /\ slides p !! k = Some s.

(** The [terminated] entry of the last slide of the deck. *)
Definition last_terminated (p : Presentation) : option bool :=
  match last (slides p) with
  | Some s => terminated s
  | None => None
  end.

(** The load-time constraints on a deck file with [n] segments: every
    slide has [0 <= start_animation < end_animation <= n], and a slide
    that is already typed ["last"] carries its [terminated] entry. *)
Definition valid_slide (n : nat) (s : Slide) : Prop :=
  0 <= start_animation s < end_animation s
  /\ end_animation s <= Z.of_nat n
  /\ (type s = "last"%string -> terminated s <> None).

(** The state a call of [update_state] returned, if it returned. *)
Definition returned_state (r : result (frame * State * Presentation)) : option State :=
  match r with
  | Ok (_, st, _) => Some st
  | Raise _ => None
  end.

(** Successive calls of [update_state], one per incoming state of [sts];
    the states they returned and the object they leave. *)
Fixpoint update_states (sts : list State) (p : Presentation)
    : result (list State * Presentation) :=
  match sts with
  | [] => Ok ([], p)
  | st :: sts' =>
      r <- update_state st p ;;
      let '(_, st', p') := r in
      rest <- update_states sts' p' ;;
      Ok (st' :: fst rest, snd rest)
  end.

Definition valid_config (ss : list Slide) (files : list string) : Prop :=
  Forall (valid_slide (length files)) ss.

(** The part of [update_state] that every path runs first: the read, its
    effect on the capture, and the cached frame. *)
Definition after_read (p : Presentation) (k : nat) (c : VideoCapture) : Presentation :=
  let p' := set_caps (<[k := snd (read c)]> (caps p)) p in
  match fst (read c) with
  | Some f => set_lastframe (Some f) p'
  | None => p'
  end.

End Deck.

(** ** A deck and a session to run the properties on *)

Module Examples.
Import Present.

Definition video (fs : list frame) (at_frame : nat) : VideoCapture :=
  mkCap fs at_frame (float_of_Z 30).

(** What a file that cannot be read gives: no frame, and a rate of 0.0. *)
Definition no_video : VideoCapture := mkCap [] 0 (S754_zero false).

(** Three readable files and, for every other name, one that yields no
    frame at all. *)
Definition open_demo (f : string) : VideoCapture :=
  if (f =? "a.mp4")%string then video [1; 2]%N 0
  else if (f =? "b.mp4")%string then video [3]%N 0
  else if (f =? "c.mp4")%string then video [4; 5]%N 0
  else no_video.

Definition demo_files : list string := ["a.mp4"; "b.mp4"; "c.mp4"]%string.

(** The slides as the deck file has them: the last one is not yet typed
    ["last"]. *)
Definition demo_slides : list Slide :=
  [ mkSlide "slide" 0 1 1 None; mkSlide "loop" 1 2 2 None;
    mkSlide "slide" 2 3 3 None ].

Definition loaded_slides (done : bool) : list Slide :=
  [ mkSlide "slide" 0 1 1 None; mkSlide "loop" 1 2 2 None;
    mkSlide "last" 2 3 3 (Some done) ].

(** The deck as constructed. *)
Definition deck_start : Presentation :=
  mkPresentation (loaded_slides false)
                 [video [1; 2]%N 0; video [3]%N 0; video [4; 5]%N 0] 0 0 None.

(** After the first frame of segment 0 has been shown. *)
Definition deck_playing : Presentation :=
  mkPresentation (loaded_slides false)
                 [video [1; 2]%N 1; video [3]%N 0; video [4; 5]%N 0] 0 0 (Some 1%N).

(** Back on the first slide after the loop slide has been played: the
    segment of the loop slide is at its end. *)
Definition deck_revisit : Presentation :=
  mkPresentation (loaded_slides false)
                 [video [1; 2]%N 1; video [3]%N 1; video [4; 5]%N 0] 0 0 (Some 1%N).

(** On the loop slide, its only segment played to the end. *)
Definition deck_loop_end : Presentation :=
  mkPresentation (loaded_slides false)
                 [video [1; 2]%N 2; video [3]%N 1; video [4; 5]%N 0] 1 1 (Some 3%N).

(** On the last slide, its segment half played. *)
Definition deck_last : Presentation :=
  mkPresentation (loaded_slides false)
                 [video [1; 2]%N 2; video [3]%N 1; video [4; 5]%N 1] 2 2 (Some 4%N).

(** [deck_last] after [next]: terminated, one frame still unread. *)
Definition deck_ended : Presentation :=
  mkPresentation (loaded_slides true)
                 [video [1; 2]%N 2; video [3]%N 1; video [4; 5]%N 1] 2 2 (Some 4%N).

(** [deck_ended] after [prev]: back on the loop slide. *)
Definition deck_back : Presentation :=
  mkPresentation (loaded_slides true)
                 [video [1; 2]%N 2; video [3]%N 0; video [4; 5]%N 1] 1 1 (Some 4%N).

(** A deck whose first slide spans two segments, the first one played
    to its end and the second one seen before. *)
Definition deck_two_segments : Presentation :=
  mkPresentation
    [ mkSlide "slide" 0 2 1 None; mkSlide "last" 2 3 2 (Some false) ]
    [video [1]%N 1; video [2; 3]%N 1; video [4]%N 0] 0 0 (Some 1%N).

(** A one-slide deck whose only file cannot be read. *)
Definition unreadable_slides : list Slide := [ mkSlide "slide" 0 1 1 None ].
Definition unreadable_files : list string := ["missing.mp4"%string].

(** What [__init__] makes of them. *)
Definition deck_unreadable : Presentation :=
  mkPresentation [ mkSlide "last" 0 1 1 (Some false) ] [no_video] 0 0 None.

(** A second deck, of one slide, as constructed. *)
Definition deck_second : Presentation :=
  mkPresentation [ mkSlide "last" 0 1 1 (Some false) ] [video [6; 7]%N 0] 0 0 None.

(** A first deck, of one slide, skipped after its first frame. *)
Definition deck_cut : Presentation :=
  mkPresentation [ mkSlide "last" 0 1 1 (Some true) ] [video [1; 2]%N 1] 0 0 (Some 1%N).

(** [deck_cut] after [reset]. *)
Definition deck_cut_reset : Presentation :=
  mkPresentation [ mkSlide "last" 0 1 1 (Some false) ] [video [1; 2]%N 1] 0 0 (Some 1%N).

(** A session on its second deck, the first one left as it ended. *)
Definition session_second : Display :=
  mkDisplay [deck_cut; deck_second] false PLAYING (Some 1%N) 1 40 1000.

(** [session_second] after the Back key. *)
Definition session_back : Display :=
  mkDisplay [deck_cut_reset; deck_second] false PLAYING (Some 1%N) 0 40 1000.

(** A session of one deck, one frame in. *)
Definition session_single : Display :=
  mkDisplay [deck_playing] false PLAYING (Some 1%N) 0 2 1000.

(** A session of two decks, as constructed. *)
Definition session_start : Display :=
  mkDisplay [deck_start; deck_second] false PLAYING None 0 0 0.

(** A session on the first of two decks, which has just been terminated. *)
Definition session_deck_done : Display :=
  mkDisplay [deck_ended; deck_second] true PLAYING (Some 4%N) 0 3 1000.

(** The same deck as the only one of its session. *)
Definition session_last_done : Display :=
  mkDisplay [deck_ended] false PLAYING (Some 4%N) 0 3 1000.

(** No key, then Continue, no key, Back, Rewind, PlayPause, Quit. *)
Definition demo_inputs : list (Z * Z * Z) :=
  [ (255, 10, 11); (83, 50, 51); (255, 90, 91); (81, 130, 131);
    (114, 170, 171); (32, 210, 211); (113, 250, 251) ].

(** The decode positions of the captures of deck 0 after a handler ran. *)
Definition deck0_positions (r : result Display) : option (list nat) :=
  match r with
  | Ok d => match presentations d !! 0%nat with
            | Some p => Some (pos_frames <$> caps p)
            | None => None
            end
  | Raise _ => None
  end.

End Examples.

(** ** Invariants of a deck *)

Module Invariant.
Import Present Deck.

(** The slide index designates a slide. *)
Definition slide_index_ok (p : Presentation) : Prop :=
  0 <= current_slide_i p < Z.of_nat (length (slides p)).

(** The segment index lies in the range of the current slide. *)
Definition cursor_in_slide (p : Presentation) : Prop :=
  exists s, current_slide p = Ok s
            /\ start_animation s <= current_animation p < end_animation s.

(** A deck in working order: every slide meets the load-time constraints
    for the captures at hand and both cursors are in range. *)
Definition deck_ok (p : Presentation) : Prop :=
  slide_index_ok p
  /\ Forall (valid_slide (length (caps p))) (slides p)
  /\ cursor_in_slide p.

(** What the captures hold, decode positions left out. *)
Definition footage (p : Presentation) : list (list frame * spec_float) :=
  (fun c => (frames c, prop_fps c)) <$> caps p.

(** The slides with their [terminated] entries left out. *)
Definition outline (p : Presentation) : list (string * Z * Z * Z) :=
  (fun s => (type s, start_animation s, end_animation s, number s)) <$> slides p.

(** [n] successive calls of [update_state], each entered in the state
    the previous one returned, as the loop of [run] makes them while no
    key is pressed: the frames returned, the last state, the object. *)
Fixpoint play (n : nat) (st : State) (p : Presentation)
    : result (list frame * State * Presentation) :=
  match n with
  | O => Ok ([], st, p)
  | S n' =>
      r <- update_state st p ;;
      let '(f, st', p') := r in
      r' <- play n' st' p' ;;
      let '(fs, st'', p'') := r' in
      Ok (f :: fs, st'', p'')
  end.

(** The key codes [handle_key] reacts to. *)
Definition bound_key (key : Z) : bool :=
  (key =? QUIT_KEY) || (key =? CONTINUE_KEY) || (key =? BACK_KEY)
  || (key =? REWIND_KEY) || (key =? PLAYPAUSE_KEY).

(** The active index designates a deck. *)
Definition session_index_ok (d : Display) : Prop :=
  0 <= current_presentation_i d < Z.of_nat (length (presentations d)).

(** A capture nothing has been read from, with something to read. *)
Definition fresh (c : VideoCapture) : Prop :=
  pos_frames c = 0%nat /\ frames c <> [].

(** A frame rate the frame clock can work with: [math.ceil(1000 / fps)]
    is defined (the rate is not a zero, not NaN, and the quotient is
    finite). *)
Definition rate_ok (r : spec_float) : Prop := is_ok (sleep_time_of r).

(** What a deck needs beyond [deck_ok] for a whole session: its first
    slide starts at segment 0, every capture reports a frame rate the
    frame clock can work with, and a frame is cached unless every capture
    is still [fresh]. *)
Definition sound (p : Presentation) : Prop :=
  (exists s1, slides p !! 0%nat = Some s1 /\ start_animation s1 = 0)
  /\ Forall (fun c => rate_ok (prop_fps c)) (caps p)
  /\ (lastframe p <> None \/ Forall fresh (caps p)).

Definition ready (p : Presentation) : Prop := deck_ok p /\ sound p.

(** A session in working order. *)
Definition session_ok (d : Display) : Prop :=
  session_index_ok d /\ Forall ready (presentations d).

(** What handling a key may do to a session: the state stays or becomes
    [PLAYING] or [PAUSED], the clock, the shown frame and the start-paused
    flag are untouched, no deck is added or removed, and no deck but the
    one that ends up active is changed. *)
Definition handled (d d' : Display) : Prop :=
  (state d' = state d \/ state d' = PLAYING \/ state d' = PAUSED)
  /\ start_paused d' = start_paused d
  /\ shown_frame d' = shown_frame d
  /\ lag d' = lag d
  /\ last_time d' = last_time d
  /\ length (presentations d') = length (presentations d)
  /\ (forall j : nat, Z.of_nat j <> current_presentation_i d' ->
        presentations d' !! j = presentations d !! j).

(** The loop of [run] for as long as [inputs] lasts: each entry is the
    key a tick receives and the two clock readings of its [show_video]. *)
Fixpoint run_for (inputs : list (Z * Z * Z)) (d : Display) : result Display :=
  match inputs with
  | [] => Ok d
  | (key, t1, t2) :: rest => d' <- tick key t1 t2 d ;; run_for rest d'
  end.

End Invariant.

(** * Properties *)

(** ** Indexing lemmas *)

Section Indexing.
Context {A : Type}.
Implicit Types (l : list A) (k : nat) (i : Z).

Lemma py_index_nat n k : (k < n)%nat -> py_index n (Z.of_nat k) = Some k.
Proof.
  intros Hk. unfold py_index.
  replace (0 <=? Z.of_nat k) with true by (symmetry; apply Z.leb_le; lia).
  replace (Z.of_nat k <? Z.of_nat n) with true by (symmetry; apply Z.ltb_lt; lia).
  simpl. now rewrite Nat2Z.id.
Qed.

Lemma py_index_lt n i k : py_index n i = Some k -> (k < n)%nat.
Proof.
  unfold py_index.
  destruct ((0 <=? i) && (i <? Z.of_nat n)) eqn:E1.
  - apply andb_true_iff in E1 as [H1 H2].
    apply Z.leb_le in H1. apply Z.ltb_lt in H2. intros [= <-]. lia.
  - destruct ((- Z.of_nat n <=? i) && (i <? 0)) eqn:E2; [|discriminate].
    apply andb_true_iff in E2 as [H1 H2].
    apply Z.leb_le in H1. apply Z.ltb_lt in H2. intros [= <-]. lia.
Qed.

Lemma py_index_minus_one n : n <> 0%nat -> py_index n (-1) = Some (Nat.pred n).
Proof.
  intros Hn. unfold py_index. simpl.
  replace (- Z.of_nat n <=? -1) with true by (symmetry; apply Z.leb_le; lia).
  simpl. f_equal. lia.
Qed.

Lemma getitem_nat l k x : l !! k = Some x -> getitem l (Z.of_nat k) = Ok x.
Proof.
  intros H. unfold getitem.
  rewrite py_index_nat by (eapply lookup_lt_Some; eauto).
  now rewrite H.
Qed.

Lemma getitem_inv l i x :
  getitem l i = Ok x ->
  exists k, py_index (length l) i = Some k /\ l !! k = Some x.
Proof.
  unfold getitem. destruct (py_index (length l) i) as [k|]; [|discriminate].
  destruct (l !! k) as [y|] eqn:E; [|discriminate].
  intros [= <-]. eauto.
Qed.

Lemma getitem_at l i k x :
  py_index (length l) i = Some k -> l !! k = Some x -> getitem l i = Ok x.
Proof. intros H1 H2. unfold getitem. now rewrite H1, H2. Qed.

Lemma moditem_at (f : A -> A) l i k x :
  py_index (length l) i = Some k -> l !! k = Some x ->
  moditem f l i = Ok (<[k := f x]> l).
Proof. intros H1 H2. unfold moditem. now rewrite H1, H2. Qed.

Lemma moditem_inv (f : A -> A) l i l' :
  moditem f l i = Ok l' ->
  exists k x, py_index (length l) i = Some k /\ l !! k = Some x
              /\ l' = <[k := f x]> l.
Proof.
  unfold moditem. destruct (py_index (length l) i) as [k|]; [|discriminate].
  destruct (l !! k) as [y|] eqn:E; [|discriminate].
  intros [= <-]. eauto.
Qed.

Lemma moditem_nat (f : A -> A) l k x :
  l !! k = Some x -> moditem f l (Z.of_nat k) = Ok (<[k := f x]> l).
Proof.
  intros H. eapply moditem_at; eauto.
  apply py_index_nat. eapply lookup_lt_Some; eauto.
Qed.

Lemma moditem_length (f : A -> A) l i l' :
  moditem f l i = Ok l' -> length l' = length l.
Proof.
  intros H. apply moditem_inv in H as (k & x & _ & _ & ->).
  apply length_insert.
Qed.
End Indexing.

(** ** The frame clock *)

Section FrameClock.
Import Present.

Lemma fix_time_max x : fix_time x = Z.max 1 x.
Proof. unfold fix_time. destruct (Z.ltb_spec 0 x); lia. Qed.


(** The division is the rounded one of floats: for the rate nearest to
    1000/24 the quotient is exactly 24.0, and the interval is 24 where
    division in the rationals would give 25; likewise 17 for the rate
    nearest to 1000/17. *)
Lemma sleep_time_of_rounds :
  sleep_time_of (float_div (float_of_Z 1000) (float_of_Z 24)) = Ok 24
  /\ sleep_time_of (float_div (float_of_Z 1000) (float_of_Z 17)) = Ok 17.
Proof. split; vm_compute; reflexivity. Qed.

(** What the frame clock does with rates that are no ordinary number. *)
Lemma sleep_time_of_edges :
  (forall s, sleep_time_of (S754_zero s) = Raise ZeroDivisionError)
  /\ sleep_time_of S754_nan
     = Raise (ValueError "cannot convert float NaN to integer")
  /\ (forall s, sleep_time_of (S754_infinity s) = Ok 0)
  /\ sleep_time_of (S754_finite false 1 (-1074)) = Raise OverflowError.
Proof.
  split; [reflexivity|]. split; [reflexivity|].
  split; [intros []; reflexivity|]. vm_compute. reflexivity.
Qed.
End FrameClock.


(** ** The slide-range validator *)

(** C7. Validation of a slide fails whenever [start_animation >=
    end_animation]; the error is the "at least one animation" message
    when both are zero and the "strictly lower" message otherwise, and
    the two messages differ.  A slide with [start_animation <
    end_animation] passes the check unchanged. *)
Theorem C7_start_before_end (v : Config.SlideConfig) :
  (Config.start_animation v >= Config.end_animation v ->
   exists msg,
     Config.start_animation_is_before_end v = Raise (ValueError msg)
     /\ Config.validate v = Raise (ValueError msg)
     /\ msg = (if (Config.start_animation v =? 0) && (Config.end_animation v =? 0)
               then Config.msg_no_animation else Config.msg_not_before))
  /\ (Config.start_animation v < Config.end_animation v ->
      Config.start_animation_is_before_end v = Ok v)
  /\ Config.msg_no_animation <> Config.msg_not_before.
Proof.
  split; [|split].
  - intros Hge. unfold Config.validate, Config.start_animation_is_before_end.
    destruct (Z.geb_spec (Config.start_animation v) (Config.end_animation v)) as [_|Hlt];
      [|lia].
    destruct (Z.eqb_spec (Config.start_animation v) (Config.end_animation v)) as [He|Hne].
    + destruct (Z.eqb_spec (Config.end_animation v) 0) as [H0|Hn0]; simpl.
      * eexists; repeat split.
        rewrite He, H0. reflexivity.
      * eexists; repeat split.
        destruct (Z.eqb_spec (Config.start_animation v) 0); [lia|reflexivity].
    + simpl. eexists; repeat split.
      destruct (Z.eqb_spec (Config.start_animation v) 0) as [H0|]; [|reflexivity].
      destruct (Z.eqb_spec (Config.end_animation v) 0); [lia|reflexivity].
  - intros Hlt. unfold Config.start_animation_is_before_end.
    destruct (Z.geb_spec (Config.start_animation v) (Config.end_animation v)); [lia|].
    reflexivity.
  - discriminate.
Qed.

Lemma C7_start_before_end_witness :
  (exists msg,
     Config.start_animation_is_before_end (Config.mkSlideConfig 0 0 1)
       = Raise (ValueError msg)
     /\ Config.validate (Config.mkSlideConfig 0 0 1) = Raise (ValueError msg)
     /\ msg = Config.msg_no_animation)
  /\ (exists msg,
     Config.start_animation_is_before_end (Config.mkSlideConfig 3 2 1)
       = Raise (ValueError msg)
     /\ Config.validate (Config.mkSlideConfig 3 2 1) = Raise (ValueError msg)
     /\ msg = Config.msg_not_before)
  /\ Config.start_animation_is_before_end (Config.mkSlideConfig 0 2 1)
     = Ok (Config.mkSlideConfig 0 2 1).
Proof.
  split; [|split].
  - apply (proj1 (C7_start_before_end (Config.mkSlideConfig 0 0 1))). simpl. lia.
  - apply (proj1 (C7_start_before_end (Config.mkSlideConfig 3 2 1))). simpl. lia.
  - apply (proj1 (proj2 (C7_start_before_end (Config.mkSlideConfig 0 2 1)))).
    simpl. lia.
Defined.

(** ** The playback state machine *)

Section Playback.
Import Present Deck.
Implicit Types (p : Presentation) (s : Slide) (c : VideoCapture) (st : State).

Lemma current_cap_at p k c :
  cap_at p (current_animation p) k c -> current_cap p = Ok c.
Proof. intros [H1 H2]. unfold current_cap. eapply getitem_at; eauto. Qed.

Lemma current_slide_at p k s :
  slide_at p (current_slide_i p) k s -> current_slide p = Ok s.
Proof. intros [H1 H2]. unfold current_slide. eapply getitem_at; eauto. Qed.

Lemma current_slide_inv p s :
  current_slide p = Ok s -> exists k, slide_at p (current_slide_i p) k s.
Proof. intros H. apply getitem_inv in H as (k & H1 & H2). exists k. now split. Qed.

Lemma read_exhausted c : exhausted c -> read c = (None, c).
Proof. unfold exhausted, read. now intros ->. Qed.

Lemma read_frame c :
  ~ exhausted c ->
  exists f, frames c !! pos_frames c = Some f
            /\ read c = (Some f, mkCap (frames c) (S (pos_frames c)) (prop_fps c)).
Proof.
  unfold exhausted, read. destruct (frames c !! pos_frames c) as [f|]; [|easy].
  intros _. now exists f.
Qed.

Lemma after_read_exhausted p k c :
  caps p !! k = Some c -> exhausted c -> after_read p k c = p.
Proof.
  intros Hk Hc. unfold after_read. rewrite (read_exhausted c Hc). simpl.
  rewrite list_insert_id by exact Hk. now destruct p.
Qed.

Lemma update_state_unfold st p k c :
  cap_at p (current_animation p) k c ->
  update_state st p =
  let q := after_read p k c in
  if State_eqb st WAIT || State_eqb st PAUSED then
    f <- get_lastframe q ;; Ok (f, st, q)
  else
    s <- current_slide q ;;
    ended <- (if (type s =? "last")%string then get_terminated s else Ok false) ;;
    if ended then f <- get_lastframe q ;; Ok (f, END, q)
    else
      sp <-
        (match fst (read c) with
         | Some _ => Ok (st, q)
         | None =>
           if end_animation s =? current_animation q + 1 then
             if (type s =? "slide")%string then Ok (WAIT, q)
             else if (type s =? "loop")%string then
               q' <- rewind (set_current_animation (start_animation s) q) ;;
               Ok (PLAYING, q')
             else if (type s =? "last")%string then Ok (WAIT, q)
             else Ok (st, q)
           else if (type s =? "last")%string && (end_animation s =? current_animation q)
           then Ok (WAIT, q)
           else
             q' <- current_cap_seek0 (set_current_animation (current_animation q + 1) q) ;;
             Ok (st, q')
         end) ;;
      let '(st', q') := sp in
      f <- get_lastframe q' ;; Ok (f, st', q').
Proof.
  intros Hc. unfold update_state. rewrite (current_cap_at p k c Hc).
  destruct Hc as [H1 H2]. simpl.
  unfold after_read. destruct (read c) as [[f|] c'] eqn:Er; simpl;
    rewrite (moditem_at _ _ _ _ _ H1 H2); simpl; reflexivity.
Qed.

(** C3. With incoming state [WAIT] or [PAUSED], [update_state] hands the
    incoming state back and leaves [current_slide_i], [current_animation]
    and the slides as they were; the read has nevertheless been made: the
    capture under the cursor is the one [read] leaves, one frame further
    whenever a frame was available.  The only way for the call not to
    return is that no frame was ever cached and none could be read. *)
Theorem C3_wait_paused_preserved p st k c :
  st = WAIT \/ st = PAUSED ->
  cap_at p (current_animation p) k c ->
  match update_state st p with
  | Ok (f, st', p') =>
      st' = st
      /\ current_slide_i p' = current_slide_i p
      /\ current_animation p' = current_animation p
      /\ slides p' = slides p
      /\ caps p' = <[k := snd (read c)]> (caps p)
      /\ lastframe p' = Some f
  | Raise e => e = AttributeError /\ lastframe p = None /\ exhausted c
  end
  /\ (~ exhausted c -> pos_frames (snd (read c)) = S (pos_frames c)).
Proof.
  intros Hst Hc. split.
  - rewrite (update_state_unfold st p k c Hc).
    assert (Hb : State_eqb st WAIT || State_eqb st PAUSED = true)
      by (destruct Hst; subst; reflexivity).
    cbv zeta. rewrite Hb. unfold after_read, get_lastframe.
    destruct (read c) as [[f|] c'] eqn:Er; simpl.
    + repeat split; reflexivity.
    + destruct (lastframe p) as [f|] eqn:El; simpl.
      * repeat split; try reflexivity. exact El.
      * repeat split. unfold exhausted. unfold read in Er.
        destruct (frames c !! pos_frames c); [discriminate|reflexivity].
  - intros Hne. destruct (read_frame c Hne) as (f & _ & ->). reflexivity.
Qed.

Lemma rewind_at p k s k0 c0 :
  slide_at p (current_slide_i p) k s ->
  cap_at p (start_animation s) k0 c0 ->
  rewind p = Ok (set_caps (<[k0 := seek0 c0]> (caps p))
                          (set_current_animation (start_animation s) p)).
Proof.
  intros Hs [H1 H2]. unfold rewind. rewrite (current_slide_at p k s Hs). simpl.
  unfold current_cap_seek0. simpl.
  rewrite (moditem_at seek0 _ _ _ _ H1 H2). reflexivity.
Qed.

Lemma rewind_inv p p' :
  rewind p = Ok p' ->
  exists s k0 c0,
    current_slide p = Ok s
    /\ cap_at p (start_animation s) k0 c0
    /\ p' = set_caps (<[k0 := seek0 c0]> (caps p))
                     (set_current_animation (start_animation s) p).
Proof.
  unfold rewind. destruct (current_slide p) as [s|e] eqn:Es; [|discriminate].
  simpl. unfold current_cap_seek0. simpl.
  destruct (moditem seek0 (caps p) (start_animation s)) as [cs|e] eqn:Em;
    [|discriminate].
  simpl. intros [= <-].
  apply moditem_inv in Em as (k0 & c0 & H1 & H2 & ->).
  exists s, k0, c0. repeat split; assumption.
Qed.

(** C4. On a loop slide, with incoming state [PLAYING]: the state
    returned is [PLAYING] on every path, never [WAIT]; and when the read
    fails on the last segment of the slide ([end_animation =
    current_animation + 1]), the cursor is put back on [start_animation]
    and that segment is sought to its first frame. *)
Theorem C4_loop_restarts p s :
  current_slide p = Ok s ->
  type s = "loop"%string ->
  (forall f st' p', update_state PLAYING p = Ok (f, st', p') -> st' = PLAYING)
  /\ (forall k c k0 c0 f,
        cap_at p (current_animation p) k c ->
        exhausted c ->
        end_animation s = current_animation p + 1 ->
        cap_at p (start_animation s) k0 c0 ->
        lastframe p = Some f ->
        update_state PLAYING p
        = Ok (f, PLAYING,
              set_caps (<[k0 := seek0 c0]> (caps p))
                       (set_current_animation (start_animation s) p))).
Proof.
  intros Hs Ht. split.
  - intros f st' p' H.
    destruct (current_cap p) as [c|e] eqn:Ec;
      [|unfold update_state in H; rewrite Ec in H; discriminate].
    apply getitem_inv in Ec as (k & H1 & H2).
    rewrite (update_state_unfold PLAYING p k c (conj H1 H2)) in H.
    cbv zeta in H. simpl orb in H. cbv iota in H.
    assert (Hq : current_slide (after_read p k c) = Ok s).
    { unfold after_read. destruct (fst (read c)); exact Hs. }
    rewrite Hq in H. simpl in H. rewrite Ht in H. simpl in H.
    destruct (fst (read c)); simpl in H.
    + destruct (get_lastframe _); simpl in H; congruence.
    + destruct (end_animation s =? current_animation (after_read p k c) + 1).
      * destruct (rewind _) as [q'|]; simpl in H; [|discriminate].
        destruct (get_lastframe q'); simpl in H; congruence.
      * destruct (current_cap_seek0 _) as [q'|]; simpl in H; [|discriminate].
        destruct (get_lastframe q'); simpl in H; congruence.
  - intros k c k0 c0 f Hc Hex Hend Hc0 Hf.
    rewrite (update_state_unfold PLAYING p k c Hc).
    rewrite (after_read_exhausted p k c (proj2 Hc) Hex).
    rewrite (read_exhausted c Hex). cbv zeta. simpl orb. cbv iota.
    rewrite Hs. simpl. rewrite Ht. simpl.
    rewrite Hend, Z.eqb_refl.
    destruct (current_slide_inv p s Hs) as (ks & Hks).
    erewrite (rewind_at (set_current_animation (start_animation s) p) ks s k0 c0);
      [|exact Hks|exact Hc0].
    simpl. unfold get_lastframe. simpl. rewrite Hf. reflexivity.
Qed.

Lemma moditem_last {A} (f : A -> A) (l : list A) x :
  last l = Some x -> moditem f l (-1) = Ok (<[Nat.pred (length l) := f x]> l).
Proof.
  intros Hl. assert (Hn : l <> []) by (intros ->; discriminate).
  eapply moditem_at.
  - apply py_index_minus_one. now destruct l.
  - now rewrite <- last_lookup.
Qed.

Lemma moditem_last_inv {A} (f : A -> A) (l l' : list A) :
  moditem f l (-1) = Ok l' ->
  exists x, last l = Some x /\ l' = <[Nat.pred (length l) := f x]> l.
Proof.
  intros H. destruct (last l) as [x|] eqn:El.
  - exists x. split; [reflexivity|]. rewrite (moditem_last f l x El) in H. congruence.
  - apply last_None in El. subst l. discriminate.
Qed.

(** What [__init__] builds: the slides of the file with the last one
    coerced to type ["last"] and not terminated, one capture per file,
    the cursor on slide 0 and segment 0, and no cached frame. *)
Lemma init_inv open ss files p :
  init open ss files = Ok p ->
  exists s0,
    last ss = Some s0
    /\ p = mkPresentation
             (<[Nat.pred (length ss) :=
                  mkSlide "last" (start_animation s0) (end_animation s0)
                          (number s0) (Some false)]> ss)
             (open <$> files) 0 0 None.
Proof.
  unfold init, reset. simpl.
  destruct (moditem (set_terminated false) ss (-1)) as [l1|] eqn:E1; [|discriminate].
  apply moditem_last_inv in E1 as (s0 & Hl & ->). simpl.
  set (n := Nat.pred (length ss)).
  assert (Hn : (n < length ss)%nat).
  { rewrite last_lookup in Hl. apply lookup_lt_Some in Hl. exact Hl. }
  assert (Hlast : forall x, last (<[n := x]> ss) = Some x).
  { intros x. rewrite last_lookup, length_insert. fold n.
    now apply list_lookup_insert_eq. }
  rewrite (moditem_last _ _ _ (Hlast _)). simpl.
  rewrite length_insert. fold n. rewrite list_insert_insert_eq.
  rewrite (moditem_last _ _ _ (Hlast _)). simpl.
  rewrite length_insert. fold n. rewrite list_insert_insert_eq.
  intros [= <-]. exists s0. split; [exact Hl|reflexivity].
Qed.

Lemma init_ok open ss files :
  ss <> [] -> is_ok (init open ss files).
Proof.
  intros Hne. destruct (last ss) as [s0|] eqn:Hl;
    [|apply last_None in Hl; contradiction].
  unfold is_ok, init, reset. simpl.
  rewrite (moditem_last _ _ _ Hl). simpl.
  set (n := Nat.pred (length ss)).
  assert (Hn : (n < length ss)%nat).
  { rewrite last_lookup in Hl. apply lookup_lt_Some in Hl. exact Hl. }
  assert (Hlast : forall x, last (<[n := x]> ss) = Some x).
  { intros x. rewrite last_lookup, length_insert. fold n.
    now apply list_lookup_insert_eq. }
  rewrite (moditem_last _ _ _ (Hlast _)). simpl.
  rewrite length_insert. fold n. rewrite list_insert_insert_eq.
  rewrite (moditem_last _ _ _ (Hlast _)). simpl.
  eauto.
Qed.

(** C5. [next] on a slide of type ["last"] (the type the last slide of
    every deck is given at construction) marks it terminated and leaves
    the slide index, the segment index and the captures alone.  On any
    other slide, at index [i], it moves to [min (i + 1) (len - 1)] and
    rewinds: the segment index becomes the [start_animation] of the new
    slide and the capture of that segment is left at decode position 0,
    wherever it was, with its frames and frame rate as they were; no
    other capture is touched. *)
Theorem C5_next p k s :
  slide_at p (current_slide_i p) k s ->
  (type s = "last"%string ->
   next p = Ok (mkPresentation (<[k := set_terminated true s]> (slides p))
                               (caps p) (current_animation p)
                               (current_slide_i p) (lastframe p)))
  /\ (type s <> "last"%string ->
      let j := Z.min (Z.of_nat (length (slides p)) - 1) (current_slide_i p + 1) in
      next p = rewind (set_current_slide_i j p)
      /\ forall k' s' k0 c0,
           slide_at p j k' s' ->
           cap_at p (start_animation s') k0 c0 ->
           exists p',
             next p = Ok p'
             /\ slides p' = slides p
             /\ current_slide_i p' = j
             /\ current_animation p' = start_animation s'
             /\ lastframe p' = lastframe p
             /\ caps p' !! k0 = Some (mkCap (frames c0) 0 (prop_fps c0))
             /\ length (caps p') = length (caps p)
             /\ (forall i, i <> k0 -> caps p' !! i = caps p !! i)).
Proof.
  intros Hs. pose proof (current_slide_at p k s Hs) as Hcs. split.
  - intros Ht. unfold next. rewrite Hcs. simpl. rewrite Ht. simpl.
    destruct Hs as [H1 H2]. rewrite (moditem_at _ _ _ _ _ H1 H2). reflexivity.
  - intros Ht j.
    assert (Hn : next p = rewind (set_current_slide_i j p)).
    { unfold next. rewrite Hcs. simpl.
      destruct (String.eqb_spec (type s) "last"); [contradiction|reflexivity]. }
    split; [exact Hn|].
    intros k' s' k0 c0 Hs' Hc0. rewrite Hn.
    rewrite (rewind_at (set_current_slide_i j p) k' s' k0 c0 Hs' Hc0).
    eexists. split; [reflexivity|]. simpl.
    repeat split.
    + apply list_lookup_insert_eq. destruct Hc0 as [_ Hc0].
      eapply lookup_lt_Some; eauto.
    + apply length_insert.
    + intros i Hi. now apply list_lookup_insert_ne.
Qed.

Lemma C3_wait_paused_preserved_witness :
  match update_state WAIT Examples.deck_start with
  | Ok (f, st', p') =>
      st' = WAIT
      /\ current_slide_i p' = 0
      /\ current_animation p' = 0
      /\ slides p' = Examples.loaded_slides false
      /\ caps p' = caps Examples.deck_playing
      /\ lastframe p' = Some f
  | Raise e =>
      e = AttributeError /\ lastframe Examples.deck_start = None
      /\ exhausted (Examples.video [1; 2]%N 0)
  end
  /\ (~ exhausted (Examples.video [1; 2]%N 0) ->
      pos_frames (snd (read (Examples.video [1; 2]%N 0))) = 1%nat).
Proof.
  apply (C3_wait_paused_preserved Examples.deck_start WAIT 0
           (Examples.video [1; 2]%N 0)).
  - left. reflexivity.
  - split; reflexivity.
Defined.

Lemma C4_loop_restarts_witness :
  (forall f st' p',
      update_state PLAYING Examples.deck_loop_end = Ok (f, st', p') -> st' = PLAYING)
  /\ update_state PLAYING Examples.deck_loop_end
     = Ok (3%N, PLAYING,
           mkPresentation (Examples.loaded_slides false)
             [Examples.video [1; 2]%N 2; Examples.video [3]%N 0;
              Examples.video [4; 5]%N 0] 1 1 (Some 3%N)).
Proof.
  destruct (C4_loop_restarts Examples.deck_loop_end (mkSlide "loop" 1 2 2 None))
    as [H1 H2]; [reflexivity | reflexivity |].
  split; [exact H1|].
  apply (H2 1%nat (Examples.video [3]%N 1) 1%nat (Examples.video [3]%N 1) 3%N).
  - split; reflexivity.
  - reflexivity.
  - reflexivity.
  - split; reflexivity.
  - reflexivity.
Defined.

Lemma C5_next_witness :
  next Examples.deck_last = Ok Examples.deck_ended
  /\ exists p',
       next Examples.deck_revisit = Ok p'
       /\ slides p' = Examples.loaded_slides false
       /\ current_slide_i p' = 1
       /\ current_animation p' = 1
       /\ lastframe p' = Some 1%N
       /\ caps p' !! 1%nat = Some (Examples.video [3]%N 0)
       /\ length (caps p') = 3%nat
       /\ (forall i, i <> 1%nat -> caps p' !! i = caps Examples.deck_revisit !! i).
Proof.
  split.
  - apply (proj1 (C5_next Examples.deck_last 2 (mkSlide "last" 2 3 3 (Some false))
                    (conj eq_refl eq_refl))).
    reflexivity.
  - destruct (proj2 (C5_next Examples.deck_revisit 0 (mkSlide "slide" 0 1 1 None)
                       (conj eq_refl eq_refl))) as [_ H].
    + discriminate.
    + apply (H 1%nat (mkSlide "loop" 1 2 2 None) 1%nat (Examples.video [3]%N 1));
        split; reflexivity.
Defined.


Lemma after_read_fields p k c :
  slides (after_read p k c) = slides p
  /\ current_slide_i (after_read p k c) = current_slide_i p
  /\ current_animation (after_read p k c) = current_animation p
  /\ caps (after_read p k c) = <[k := snd (read c)]> (caps p).
Proof. unfold after_read. destruct (fst (read c)); repeat split. Qed.

Lemma after_read_lastframe p k c :
  lastframe p <> None \/ ~ exhausted c ->
  exists f, lastframe (after_read p k c) = Some f.
Proof.
  intros H. unfold after_read.
  destruct (fst (read c)) as [f|] eqn:Er; simpl; [eauto|].
  destruct (lastframe p) as [f|] eqn:El; [eauto|].
  destruct H as [H|H]; [congruence|].
  destruct (read_frame c H) as (f & _ & E). rewrite E in Er. discriminate.
Qed.

Lemma after_read_cap_at p k c :
  cap_at p (current_animation p) k c ->
  cap_at (after_read p k c) (current_animation (after_read p k c)) k (snd (read c)).
Proof.
  intros [H1 H2].
  destruct (after_read_fields p k c) as (_ & _ & Ha & Hc).
  unfold cap_at. rewrite Ha, Hc, length_insert. split; [exact H1|].
  apply list_lookup_insert_eq. eapply lookup_lt_Some; eauto.
Qed.

(** One call on a terminated last slide, incoming state neither [WAIT]
    nor [PAUSED]. *)
Lemma update_state_ended p st ks s k c :
  st <> WAIT -> st <> PAUSED ->
  slide_at p (current_slide_i p) ks s ->
  type s = "last"%string -> terminated s = Some true ->
  cap_at p (current_animation p) k c ->
  lastframe p <> None \/ ~ exhausted c ->
  exists f, update_state st p = Ok (f, END, after_read p k c)
            /\ lastframe (after_read p k c) = Some f.
Proof.
  intros Hw Hp Hs Ht Hterm Hc Hf.
  rewrite (update_state_unfold st p k c Hc). cbv zeta.
  replace (State_eqb st WAIT || State_eqb st PAUSED) with false
    by (destruct st; simpl; congruence).
  destruct (after_read_fields p k c) as (Hsl & Hi & _ & _).
  assert (Hq : current_slide (after_read p k c) = Ok s).
  { unfold current_slide. rewrite Hsl, Hi. exact (current_slide_at p ks s Hs). }
  rewrite Hq. simpl. rewrite Ht. simpl. unfold get_terminated. rewrite Hterm. simpl.
  destruct (after_read_lastframe p k c Hf) as (f & Hl).
  exists f. split; [|exact Hl]. unfold get_lastframe. rewrite Hl. reflexivity.
Qed.

(** C1, as the code has it.  On a deck whose current slide is the slide
    of type ["last"] with [terminated] set, every call of [update_state]
    whose incoming state is neither [WAIT] nor [PAUSED] returns [END],
    whether the read succeeds or not, as long as a frame is cached or
    can be read; the cursor and the slides are left as they were, so
    every later such call returns [END] as well. *)
Theorem C1_ended_unless_wait_or_paused (sts : list State) p ks s k c :
  Forall (fun st => st <> WAIT /\ st <> PAUSED) sts ->
  slide_at p (current_slide_i p) ks s ->
  type s = "last"%string -> terminated s = Some true ->
  cap_at p (current_animation p) k c ->
  lastframe p <> None \/ ~ exhausted c ->
  exists q,
    update_states sts p = Ok (replicate (length sts) END, q)
    /\ slides q = slides p
    /\ current_slide_i q = current_slide_i p
    /\ current_animation q = current_animation p.
Proof.
  intros Hsts. revert p c.
  induction Hsts as [|st sts [Hw Hp] _ IH]; intros p c Hs Ht Hterm Hc Hf.
  - exists p. repeat split.
  - destruct (update_state_ended p st ks s k c Hw Hp Hs Ht Hterm Hc Hf)
      as (f & Hu & Hl).
    destruct (after_read_fields p k c) as (Hsl & Hi & Ha & Hcaps).
    destruct (IH (after_read p k c) (snd (read c))) as (q & Hq & Hq1 & Hq2 & Hq3).
    + destruct Hs as [H1 H2]. unfold slide_at. rewrite Hsl, Hi. now split.
    + exact Ht.
    + exact Hterm.
    + now apply after_read_cap_at.
    + left. congruence.
    + exists q. simpl. rewrite Hu. simpl. rewrite Hq. simpl.
      repeat split; congruence.
Qed.

Lemma C1_ended_unless_wait_or_paused_witness :
  exists q,
    update_states [PLAYING; END; PLAYING] Examples.deck_ended
    = Ok ([END; END; END], q)
    /\ slides q = Examples.loaded_slides true
    /\ current_slide_i q = 2
    /\ current_animation q = 2.
Proof.
  apply (C1_ended_unless_wait_or_paused [PLAYING; END; PLAYING] Examples.deck_ended
           2 (mkSlide "last" 2 3 3 (Some true)) 2 (Examples.video [4; 5]%N 1)).
  - repeat constructor; discriminate.
  - split; reflexivity.
  - reflexivity.
  - reflexivity.
  - split; reflexivity.
  - left. discriminate.
Defined.

(** C1 as stated fails twice over: with incoming state [WAIT] or
    [PAUSED] a terminated deck hands that state back, and with the cursor
    moved off the terminated last slide it keeps playing. *)
Lemma C1_counterexample :
  last_terminated Examples.deck_ended = Some true
  /\ returned_state (update_state WAIT Examples.deck_ended) = Some WAIT
  /\ returned_state (update_state PAUSED Examples.deck_ended) = Some PAUSED
  /\ last_terminated Examples.deck_back = Some true
  /\ returned_state (update_state PLAYING Examples.deck_back) = Some PLAYING.
Proof. repeat split; reflexivity. Qed.

(** The decks used above are reached through the methods of
    [Presentation] alone. *)
Lemma demo_decks_reached :
  init Examples.open_demo Examples.demo_slides Examples.demo_files
  = Ok Examples.deck_start
  /\ update_state PLAYING Examples.deck_start
     = Ok (1%N, PLAYING, Examples.deck_playing)
  /\ next Examples.deck_last = Ok Examples.deck_ended
  /\ prev Examples.deck_ended = Ok Examples.deck_back.
Proof. repeat split; reflexivity. Qed.

Lemma rewind_lastframe p p' : rewind p = Ok p' -> lastframe p' = lastframe p.
Proof.
  intros H. apply rewind_inv in H as (s & k0 & c0 & _ & _ & ->). reflexivity.
Qed.

Lemma current_cap_seek0_lastframe p p' :
  current_cap_seek0 p = Ok p' -> lastframe p' = lastframe p.
Proof.
  unfold current_cap_seek0.
  destruct (moditem seek0 (caps p) (current_animation p)); [|discriminate].
  simpl. now intros [= <-].
Qed.

Lemma get_lastframe_none {A} p (k : frame -> result A) :
  lastframe p = None -> (f <- get_lastframe p ;; k f) = Raise AttributeError.
Proof. intros H. unfold get_lastframe. now rewrite H. Qed.

(** Without a cached frame and with nothing to read, no path of
    [update_state] returns. *)
Lemma update_state_no_frame p st k c :
  cap_at p (current_animation p) k c -> exhausted c -> lastframe p = None ->
  forall r, update_state st p <> Ok r.
Proof.
  intros Hc Hex Hl r.
  rewrite (update_state_unfold st p k c Hc).
  rewrite (after_read_exhausted p k c (proj2 Hc) Hex).
  rewrite (read_exhausted c Hex). cbv zeta. simpl fst. cbv iota.
  destruct (State_eqb st WAIT || State_eqb st PAUSED).
  { now rewrite get_lastframe_none. }
  destruct (current_slide p) as [s|]; [simpl|discriminate].
  destruct (if (type s =? "last")%string then get_terminated s else Ok false)
    as [[|]|]; simpl; [now rewrite get_lastframe_none| |discriminate].
  destruct (end_animation s =? current_animation p + 1).
  - destruct (type s =? "slide")%string;
      [simpl; now rewrite get_lastframe_none|].
    destruct (type s =? "loop")%string.
    + destruct (rewind _) as [q|] eqn:Er; [simpl|discriminate].
      apply rewind_lastframe in Er. simpl in Er. rewrite Hl in Er.
      now rewrite get_lastframe_none.
    + destruct (type s =? "last")%string; simpl;
        now rewrite get_lastframe_none.
  - destruct ((type s =? "last")%string && (end_animation s =? current_animation p));
      [simpl; now rewrite get_lastframe_none|].
    destruct (current_cap_seek0 _) as [q|] eqn:Es; [simpl|discriminate].
    apply current_cap_seek0_lastframe in Es. simpl in Es. rewrite Hl in Es.
    now rewrite get_lastframe_none.
Qed.

Lemma cap_at_nonneg p i :
  0 <= i < Z.of_nat (length (caps p)) ->
  exists c, cap_at p i (Z.to_nat i) c.
Proof.
  intros Hi. destruct (lookup_lt_is_Some_2 (caps p) (Z.to_nat i)) as [c Hc]; [lia|].
  exists c. split; [|exact Hc].
  rewrite <- (Z2Nat.id i) at 1 by lia. apply py_index_nat. lia.
Qed.

(** With the cursor inside a valid slide, that failure is the
    [AttributeError] of the missing [lastframe]. *)
Lemma update_state_no_frame_valid p st k c s :
  cap_at p (current_animation p) k c -> exhausted c -> lastframe p = None ->
  current_slide p = Ok s ->
  valid_slide (length (caps p)) s ->
  0 <= current_animation p < end_animation s ->
  update_state st p = Raise AttributeError.
Proof.
  intros Hc Hex Hl Hs (Hrange & Hend & Hkey) Hcur.
  rewrite (update_state_unfold st p k c Hc).
  rewrite (after_read_exhausted p k c (proj2 Hc) Hex).
  rewrite (read_exhausted c Hex). cbv zeta. simpl fst. cbv iota.
  destruct (State_eqb st WAIT || State_eqb st PAUSED).
  { now rewrite get_lastframe_none. }
  rewrite Hs. simpl.
  assert (Hterm : exists b,
    (if (type s =? "last")%string then get_terminated s else Ok false) = Ok b).
  { destruct (String.eqb_spec (type s) "last") as [E|_]; [|eauto].
    unfold get_terminated. destruct (terminated s) as [b|]; [eauto|].
    now specialize (Hkey E). }
  destruct Hterm as ([|] & ->); simpl; [now rewrite get_lastframe_none|].
  destruct (current_slide_inv p s Hs) as (ks & Hks).
  destruct (Z.eqb_spec (end_animation s) (current_animation p + 1)) as [E|E].
  - destruct (type s =? "slide")%string;
      [simpl; now rewrite get_lastframe_none|].
    destruct (type s =? "loop")%string.
    + destruct (cap_at_nonneg p (start_animation s)) as (c0 & Hc0); [lia|].
      erewrite (rewind_at (set_current_animation (start_animation s) p) ks s _ c0);
        [|exact Hks|exact Hc0].
      simpl. now rewrite get_lastframe_none.
    + destruct (type s =? "last")%string; simpl;
        now rewrite get_lastframe_none.
  - destruct (Z.eqb_spec (end_animation s) (current_animation p)) as [E'|_]; [lia|].
    rewrite andb_false_r.
    destruct (cap_at_nonneg p (current_animation p + 1)) as (c1 & H1 & H2); [lia|].
    unfold current_cap_seek0. simpl.
    rewrite (moditem_at seek0 _ _ _ _ H1 H2). simpl.
    now rewrite get_lastframe_none.
Qed.

Lemma valid_slide_coerced n s :
  valid_slide n s ->
  valid_slide n (mkSlide "last" (start_animation s) (end_animation s)
                         (number s) (Some false)).
Proof. intros (H1 & H2 & _). repeat split; try assumption; simpl; lia || discriminate. Qed.

(** C8. [__init__] leaves [lastframe] unassigned, and every path of
    [update_state] ends by reading it.  So on a freshly constructed deck
    whose first segment yields no frame, the first [update_state] never
    returns a (frame, state) pair, whatever the incoming state; for a
    deck file that meets the load-time constraints the exception is the
    [AttributeError]. *)
Theorem C8_first_update_without_frame open ss files f0 p st :
  init open ss files = Ok p ->
  files !! 0%nat = Some f0 ->
  exhausted (open f0) ->
  lastframe p = None
  /\ (forall r, update_state st p <> Ok r)
  /\ (valid_config ss files -> update_state st p = Raise AttributeError).
Proof.
  intros Hinit Hf0 Hex.
  destruct (init_inv open ss files p Hinit) as (s0 & Hlast & ->).
  set (p := mkPresentation _ _ _ _ _).
  assert (Hc : cap_at p (current_animation p) 0 (open f0)).
  { split; simpl.
    - rewrite length_fmap. apply (py_index_nat _ 0).
      eapply lookup_lt_Some; eauto.
    - rewrite list_lookup_fmap, Hf0. reflexivity. }
  split; [reflexivity|]. split.
  - now apply (update_state_no_frame p st 0 (open f0)).
  - intros Hvalid.
    set (n := Nat.pred (length ss)).
    assert (Hn : (n < length ss)%nat).
    { rewrite last_lookup in Hlast. apply lookup_lt_Some in Hlast. exact Hlast. }
    destruct (lookup_lt_is_Some_2 (slides p) 0) as [s Hs].
    { simpl. rewrite length_insert. lia. }
    assert (Hv : valid_slide (length files) s).
    { simpl in Hs. apply list_lookup_insert_Some in Hs
        as [(_ & <- & _)|(_ & Hs)].
      - apply valid_slide_coerced.
        rewrite last_lookup in Hlast.
        exact (proj1 (Forall_lookup _ _) Hvalid _ _ Hlast).
      - exact (proj1 (Forall_lookup _ _) Hvalid _ _ Hs). }
    apply (update_state_no_frame_valid p st 0 (open f0) s); try assumption.
    + reflexivity.
    + exact (getitem_nat (slides p) 0 s Hs).
    + simpl. now rewrite length_fmap.
    + destruct Hv as (Hr & _). simpl. lia.
Qed.

Lemma C8_first_update_without_frame_witness :
  init Examples.open_demo Examples.unreadable_slides Examples.unreadable_files
  = Ok Examples.deck_unreadable
  /\ lastframe Examples.deck_unreadable = None
  /\ (forall r, update_state PLAYING Examples.deck_unreadable <> Ok r)
  /\ update_state PLAYING Examples.deck_unreadable = Raise AttributeError.
Proof.
  split; [reflexivity|].
  destruct (C8_first_update_without_frame Examples.open_demo
              Examples.unreadable_slides Examples.unreadable_files
              "missing.mp4"%string Examples.deck_unreadable PLAYING)
    as (H1 & H2 & H3).
  - reflexivity.
  - reflexivity.
  - reflexivity.
  - split; [exact H1|]. split; [exact H2|]. apply H3.
    repeat constructor; simpl; try lia. discriminate.
Defined.

Lemma next_terminal p k s :
  slide_at p (current_slide_i p) k s -> type s = "last"%string ->
  next p = Ok (set_slides (<[k := set_terminated true s]> (slides p)) p).
Proof.
  intros Hs Ht. unfold next. rewrite (current_slide_at p k s Hs). simpl.
  rewrite Ht. simpl. destruct Hs as [H1 H2].
  now rewrite (moditem_at _ _ _ _ _ H1 H2).
Qed.

Lemma next_forward p k s :
  slide_at p (current_slide_i p) k s -> type s <> "last"%string ->
  next p = rewind (set_current_slide_i
                     (Z.min (Z.of_nat (length (slides p)) - 1) (current_slide_i p + 1)) p).
Proof.
  intros Hs Ht. unfold next. rewrite (current_slide_at p k s Hs). simpl.
  destruct (String.eqb_spec (type s) "last"); [contradiction|reflexivity].
Qed.

Lemma last_insert_terminated (l : list Slide) k s :
  l !! k = Some s ->
  match last l with Some x => terminated x | None => None end = Some true ->
  match last (<[k := set_terminated true s]> l) with
  | Some x => terminated x
  | None => None
  end = Some true.
Proof.
  intros Hk. rewrite !last_lookup, length_insert.
  destruct (decide (k = Nat.pred (length l))) as [->|Hne].
  - intros _. rewrite list_lookup_insert_eq; [reflexivity|].
    eapply lookup_lt_Some; eauto.
  - now rewrite list_lookup_insert_ne.
Qed.

Lemma rewind_slides p p' : rewind p = Ok p' -> slides p' = slides p.
Proof.
  intros H. apply rewind_inv in H as (s & k0 & c0 & _ & _ & ->). reflexivity.
Qed.

Lemma prev_slides p p' : prev p = Ok p' -> slides p' = slides p.
Proof. unfold prev. intros H. now apply rewind_slides in H. Qed.

Lemma next_keeps_terminated p p' :
  next p = Ok p' -> last_terminated p = Some true -> last_terminated p' = Some true.
Proof.
  unfold next. destruct (current_slide p) as [s|] eqn:Es; [simpl|discriminate].
  destruct (type s =? "last")%string.
  - destruct (moditem _ _ _) as [l'|] eqn:Em; [simpl|discriminate].
    intros [= <-]. apply moditem_inv in Em as (k & x & _ & Hk & ->).
    unfold last_terminated. simpl. now apply last_insert_terminated.
  - intros H. apply rewind_slides in H. unfold last_terminated. now rewrite H.
Qed.

(** C9. [reset] clears the [terminated] entry of the last slide, and
    [prev], [rewind] and [next] never do: the first two leave the slides
    untouched and [next] can only set the entry.  So from the last slide
    of a deck of two slides or more, [next] (which terminates it), [prev]
    and [next] again lead back to the last slide with [terminated] still
    set, and the following [update_state], entered in state [PLAYING],
    returns [END] with the cursor on the first segment of that slide. *)
Theorem C9_terminated_survives_navigation p m sl sp kl cl kp cp f0 :
  length (slides p) = S (S m) ->
  current_slide_i p = Z.of_nat (S m) ->
  slides p !! S m = Some sl -> type sl = "last"%string ->
  slides p !! m = Some sp -> type sp <> "last"%string ->
  cap_at p (start_animation sl) kl cl ->
  cap_at p (start_animation sp) kp cp ->
  lastframe p = Some f0 ->
  (forall q q', reset q = Ok q' -> last_terminated q' = Some false)
  /\ (forall q q', prev q = Ok q' -> slides q' = slides q)
  /\ (forall q q', rewind q = Ok q' -> slides q' = slides q)
  /\ (forall q q', next q = Ok q' ->
        last_terminated q = Some true -> last_terminated q' = Some true)
  /\ exists p1 p2 p3 f p4,
       next p = Ok p1 /\ prev p1 = Ok p2 /\ next p2 = Ok p3
       /\ current_slide_i p2 = Z.of_nat m
       /\ current_slide_i p3 = Z.of_nat (S m)
       /\ last_terminated p3 = Some true
       /\ update_state PLAYING p3 = Ok (f, END, p4)
       /\ current_slide_i p4 = Z.of_nat (S m)
       /\ current_animation p4 = start_animation sl.
Proof.
  intros Hlen Hi Hsl Htl Hsp Htp Hcl Hcp Hf.
  split; [|split; [exact prev_slides|split; [exact rewind_slides|
           split; [exact next_keeps_terminated|]]]].
  { intros q q'. unfold reset. simpl.
    destruct (moditem _ _ _) as [l'|] eqn:Em; [simpl|discriminate].
    intros [= <-]. apply moditem_last_inv in Em as (x & Hx & ->).
    unfold last_terminated. simpl.
    rewrite last_lookup, length_insert, list_lookup_insert_eq; [reflexivity|].
    rewrite last_lookup in Hx. eapply lookup_lt_Some; eauto. }
  (* next on the last slide *)
  set (ss1 := <[S m := set_terminated true sl]> (slides p)).
  set (p1 := set_slides ss1 p).
  assert (H1 : next p = Ok p1).
  { apply next_terminal; [|exact Htl]. split; [|exact Hsl].
    rewrite Hi. apply py_index_nat. rewrite Hlen. lia. }
  (* prev *)
  assert (Hlen1 : length ss1 = S (S m)) by (unfold ss1; now rewrite length_insert).
  assert (Hsp1 : ss1 !! m = Some sp).
  { unfold ss1. rewrite list_lookup_insert_ne by lia. exact Hsp. }
  assert (Hsl1 : ss1 !! S m = Some (set_terminated true sl)).
  { unfold ss1. apply list_lookup_insert_eq. rewrite Hlen. lia. }
  set (p2 := set_caps (<[kp := seek0 cp]> (caps p))
               (set_current_animation (start_animation sp)
                  (set_current_slide_i (Z.of_nat m) p1))).
  assert (H2 : prev p1 = Ok p2).
  { unfold prev. simpl. rewrite Hi.
    replace (Z.max 0 (Z.of_nat (S m) - 1)) with (Z.of_nat m) by lia.
    rewrite (rewind_at _ m sp kp cp); [reflexivity| |exact Hcp].
    split; simpl; [|exact Hsp1]. apply py_index_nat. rewrite Hlen1. lia. }
  (* next again *)
  destruct Hcl as [Hkl Hcl].
  assert (Hkl' : (kl < length (caps p))%nat) by (eapply lookup_lt_Some; eauto).
  destruct (lookup_lt_is_Some_2 (<[kp := seek0 cp]> (caps p)) kl) as [cl2 Hcl2].
  { now rewrite length_insert. }
  set (p3 := set_caps (<[kl := seek0 cl2]> (caps p2))
               (set_current_animation (start_animation sl)
                  (set_current_slide_i (Z.of_nat (S m)) p2))).
  assert (H3 : next p2 = Ok p3).
  { rewrite (next_forward p2 m sp); [|split; simpl; [|exact Hsp1]|exact Htp].
    - simpl. rewrite Hlen1.
      replace (Z.min (Z.of_nat (S (S m)) - 1) (Z.of_nat m + 1))
        with (Z.of_nat (S m)) by lia.
      rewrite (rewind_at _ (S m) (set_terminated true sl) kl cl2); [reflexivity| |].
      + split; simpl; [|exact Hsl1]. apply py_index_nat. rewrite Hlen1. lia.
      + split; simpl; [|exact Hcl2]. now rewrite length_insert.
    - apply py_index_nat. rewrite Hlen1. lia. }
  destruct (update_state_ended p3 PLAYING (S m) (set_terminated true sl)
              kl (seek0 cl2)) as (f & Hu & _).
  - discriminate.
  - discriminate.
  - split; simpl; [|exact Hsl1]. apply py_index_nat. rewrite Hlen1. lia.
  - exact Htl.
  - reflexivity.
  - split; simpl.
    + now rewrite !length_insert.
    + apply list_lookup_insert_eq. now rewrite length_insert.
  - left. simpl. congruence.
  - exists p1, p2, p3, f, (after_read p3 kl (seek0 cl2)).
    destruct (after_read_fields p3 kl (seek0 cl2)) as (_ & Hi4 & Ha4 & _).
    repeat split; try assumption; try reflexivity.
    unfold last_terminated. simpl. rewrite last_lookup, Hlen1. simpl.
    now rewrite Hsl1.
Qed.

Lemma C9_terminated_survives_navigation_witness :
  exists p1 p2 p3 f p4,
    next Examples.deck_last = Ok p1 /\ prev p1 = Ok p2 /\ next p2 = Ok p3
    /\ current_slide_i p2 = 1
    /\ current_slide_i p3 = 2
    /\ last_terminated p3 = Some true
    /\ update_state PLAYING p3 = Ok (f, END, p4)
    /\ current_slide_i p4 = 2
    /\ current_animation p4 = 2.
Proof.
  apply (C9_terminated_survives_navigation Examples.deck_last 1
           (mkSlide "last" 2 3 3 (Some false)) (mkSlide "loop" 1 2 2 None)
           2 (Examples.video [4; 5]%N 1) 1 (Examples.video [3]%N 1) 4%N).
  - reflexivity.
  - reflexivity.
  - reflexivity.
  - reflexivity.
  - reflexivity.
  - discriminate.
  - split; reflexivity.
  - split; reflexivity.
  - reflexivity.
Defined.

Lemma reset_at p s0 :
  last (slides p) = Some s0 ->
  reset p = Ok (mkPresentation
                  (<[Nat.pred (length (slides p)) := set_terminated false s0]> (slides p))
                  (caps p) 0 0 (lastframe p)).
Proof.
  intros Hl. unfold reset. simpl. now rewrite (moditem_last _ _ _ Hl).
Qed.

(** When the read succeeds, the frame returned is the one read and the
    object returned is the one the read leaves. *)
Lemma update_state_read_ok p st k c f f' st' p' :
  cap_at p (current_animation p) k c ->
  frames c !! pos_frames c = Some f ->
  update_state st p = Ok (f', st', p') ->
  f' = f /\ p' = after_read p k c.
Proof.
  intros Hc Hf. rewrite (update_state_unfold st p k c Hc). cbv zeta.
  assert (Hr : read c = (Some f, mkCap (frames c) (S (pos_frames c)) (prop_fps c)))
    by (unfold read; now rewrite Hf).
  assert (Hl : get_lastframe (after_read p k c) = Ok f)
    by (unfold after_read; now rewrite Hr).
  rewrite Hl. replace (fst (read c)) with (Some f) by now rewrite Hr.
  destruct (State_eqb st WAIT || State_eqb st PAUSED); simpl.
  { intros [= <- <- <-]. now split. }
  destruct (current_slide _) as [s|]; simpl; [|discriminate].
  destruct (if (type s =? "last")%string then get_terminated s else Ok false)
    as [[|]|]; simpl; [| |discriminate].
  - intros [= <- <- <-]. now split.
  - rewrite Hl. simpl. intros [= <- <- <-]. now split.
Qed.

End Playback.

(** ** The sequencer *)

Section Sequencer.
Import Present Deck.
Implicit Types (d : Display) (p q : Presentation).

Lemma current_presentation_at d k p :
  current_presentation_i d = Z.of_nat k -> presentations d !! k = Some p ->
  current_presentation d = Ok p.
Proof.
  intros Hi Hk. unfold current_presentation. rewrite Hi. now apply getitem_nat.
Qed.

Lemma on_current_presentation_at (m : Presentation -> result Presentation) d k p p' :
  current_presentation_i d = Z.of_nat k -> presentations d !! k = Some p ->
  m p = Ok p' ->
  on_current_presentation m d
  = Ok (set_presentations (<[k := p']> (presentations d)) d).
Proof.
  intros Hi Hk Hm. unfold on_current_presentation.
  rewrite (current_presentation_at d k p Hi Hk). simpl. rewrite Hm. simpl.
  rewrite Hi, (moditem_nat _ _ _ _ Hk). reflexivity.
Qed.

(** The branch of [handle_key] the Back key selects. *)
Lemma dispatch_back d :
  dispatch_key BACK_KEY d =
  (p <- current_presentation d ;;
   if current_slide_i p =? 0 then
     d' <- on_current_presentation reset
             (set_current_presentation_i (Z.max 0 (current_presentation_i d - 1)) d) ;;
     Ok (set_state PLAYING d')
   else
     d' <- on_current_presentation prev d ;;
     Ok (set_state PLAYING d')).
Proof.
  unfold dispatch_key.
  change (BACK_KEY =? QUIT_KEY) with false.
  change (BACK_KEY =? PLAYPAUSE_KEY) with false.
  change (BACK_KEY =? CONTINUE_KEY) with false.
  change (BACK_KEY =? BACK_KEY) with true.
  cbv iota. rewrite !andb_false_r. reflexivity.
Qed.

Lemma back_to_previous d k p q s0 :
  current_presentation_i d = Z.of_nat k ->
  presentations d !! k = Some p ->
  current_slide_i p = 0 ->
  presentations d !! Nat.pred k = Some q ->
  last (slides q) = Some s0 ->
  dispatch_key BACK_KEY d
  = Ok (mkDisplay
          (<[Nat.pred k :=
               mkPresentation
                 (<[Nat.pred (length (slides q)) := set_terminated false s0]> (slides q))
                 (caps q) 0 0 (lastframe q)]> (presentations d))
          (start_paused d) PLAYING (shown_frame d)
          (Z.of_nat (Nat.pred k)) (lag d) (last_time d)).
Proof.
  intros Hi Hp H0 Hq Hl. rewrite dispatch_back.
  rewrite (current_presentation_at d k p Hi Hp). simpl. rewrite H0. simpl.
  rewrite Hi. replace (Z.max 0 (Z.of_nat k - 1)) with (Z.of_nat (Nat.pred k)) by lia.
  erewrite (on_current_presentation_at reset _ (Nat.pred k) q);
    [reflexivity|reflexivity|exact Hq|].
  now apply reset_at.
Qed.

(** C2, as the code has it.  On the Back key: when the active deck is
    on slide 0, [current_presentation_i] becomes [max 0 (i - 1)] (so it
    stays 0 on the first deck), the deck it then designates is [reset]
    (segment index 0, slide index 0, last slide not terminated, captures
    untouched) and the state is [PLAYING]; when the active deck is on
    another slide, the key goes to its [prev] and the state is
    [PLAYING]. *)
Theorem C2_back_key d k p :
  current_presentation_i d = Z.of_nat k ->
  presentations d !! k = Some p ->
  (current_slide_i p = 0 ->
   forall q s0,
     presentations d !! Nat.pred k = Some q ->
     last (slides q) = Some s0 ->
     dispatch_key BACK_KEY d
     = Ok (mkDisplay
             (<[Nat.pred k :=
                  mkPresentation
                    (<[Nat.pred (length (slides q)) := set_terminated false s0]>
                       (slides q))
                    (caps q) 0 0 (lastframe q)]> (presentations d))
             (start_paused d) PLAYING (shown_frame d)
             (Z.max 0 (current_presentation_i d - 1)) (lag d) (last_time d)))
  /\ (current_slide_i p <> 0 ->
      dispatch_key BACK_KEY d
      = (d' <- on_current_presentation prev d ;; Ok (set_state PLAYING d'))).
Proof.
  intros Hi Hp. split.
  - intros H0 q s0 Hq Hl.
    rewrite (back_to_previous d k p q s0 Hi Hp H0 Hq Hl).
    do 2 f_equal. lia.
  - intros Hne. rewrite dispatch_back.
    rewrite (current_presentation_at d k p Hi Hp). simpl.
    destruct (Z.eqb_spec (current_slide_i p) 0); [contradiction|reflexivity].
Qed.

Lemma C2_back_key_witness :
  dispatch_key BACK_KEY Examples.session_second = Ok Examples.session_back
  /\ dispatch_key BACK_KEY Examples.session_single
     = Ok (mkDisplay [Examples.deck_playing] false PLAYING (Some 1%N) 0 2 1000)
  /\ dispatch_key BACK_KEY
       (mkDisplay [Examples.deck_loop_end] false WAIT (Some 3%N) 0 2 1000)
     = (d' <- on_current_presentation prev
                (mkDisplay [Examples.deck_loop_end] false WAIT (Some 3%N) 0 2 1000) ;;
        Ok (set_state PLAYING d')).
Proof.
  split; [|split].
  - apply (proj1 (C2_back_key Examples.session_second 1 Examples.deck_second
                    eq_refl eq_refl) eq_refl
             Examples.deck_cut (mkSlide "last" 0 1 1 (Some true)));
      reflexivity.
  - apply (proj1 (C2_back_key Examples.session_single 0 Examples.deck_playing
                    eq_refl eq_refl) eq_refl
             Examples.deck_playing (mkSlide "last" 2 3 3 (Some false)));
      reflexivity.
  - apply (proj2 (C2_back_key
                    (mkDisplay [Examples.deck_loop_end] false WAIT (Some 3%N) 0 2 1000)
                    0 Examples.deck_loop_end eq_refl eq_refl)).
    discriminate.
Defined.

(** C2 as stated fails on the first deck: with [current_presentation_i =
    0] and the deck on slide 0, the Back key resets the deck, which
    leaves segment 0 at its decode position, where [prev] would have
    sought it to its first frame. *)
Lemma C2_counterexample :
  current_presentation_i Examples.session_single = 0
  /\ current_slide_i Examples.deck_playing = 0
  /\ Examples.deck0_positions (dispatch_key BACK_KEY Examples.session_single)
     = Some [1; 0; 0]%nat
  /\ Examples.deck0_positions
       (d' <- on_current_presentation prev Examples.session_single ;;
        Ok (set_state PLAYING d'))
     = Some [0; 0; 0]%nat.
Proof. repeat split; reflexivity. Qed.

(** C10. [reset] puts the cursor on slide 0 and segment 0 and clears
    [terminated], and leaves every capture where it was, whereas [rewind]
    seeks the segment it lands on.  So after a Back key that enters the
    previous deck, segment 0 of that deck is read on from the decode
    position it was left at: the next [update_state] returns the frame at
    that position. *)
Theorem C10_reset_keeps_decode_positions d k p q s0 c :
  current_presentation_i d = Z.of_nat (S k) ->
  presentations d !! S k = Some p ->
  current_slide_i p = 0 ->
  presentations d !! k = Some q ->
  last (slides q) = Some s0 ->
  caps q !! 0%nat = Some c ->
  reset q = Ok (mkPresentation
                  (<[Nat.pred (length (slides q)) := set_terminated false s0]> (slides q))
                  (caps q) 0 0 (lastframe q))
  /\ (forall r ks s k0 c0,
        slide_at r (current_slide_i r) ks s ->
        cap_at r (start_animation s) k0 c0 ->
        exists r', rewind r = Ok r' /\ caps r' = <[k0 := seek0 c0]> (caps r))
  /\ exists d' q',
       dispatch_key BACK_KEY d = Ok d'
       /\ current_presentation_i d' = Z.of_nat k
       /\ current_presentation d' = Ok q'
       /\ caps q' = caps q
       /\ current_cap q' = Ok c
       /\ forall st f f' st' q'',
            frames c !! pos_frames c = Some f ->
            update_state st q' = Ok (f', st', q'') ->
            f' = f
            /\ caps q'' = <[0%nat := mkCap (frames c) (S (pos_frames c)) (prop_fps c)]>
                            (caps q).
Proof.
  intros Hi Hp H0 Hq Hl Hc. split; [now apply reset_at|]. split.
  { intros r ks s k0 c0 Hs Hc0. eexists. split; [eapply rewind_at; eauto|].
    reflexivity. }
  pose proof (back_to_previous d (S k) p q s0 Hi Hp H0 Hq Hl) as Hb.
  simpl Nat.pred in Hb.
  set (q' := mkPresentation _ _ 0 0 _) in Hb.
  assert (Hk : (k < length (presentations d))%nat) by (eapply lookup_lt_Some; eauto).
  assert (Hcap : cap_at q' (current_animation q') 0 c).
  { split; [|exact Hc]. apply (py_index_nat _ 0). simpl.
    eapply lookup_lt_Some; eauto. }
  eexists. exists q'. split; [exact Hb|]. split; [reflexivity|].
  split.
  { apply (current_presentation_at _ k); [reflexivity|].
    simpl. now apply list_lookup_insert_eq. }
  split; [reflexivity|]. split; [exact (current_cap_at q' 0 c Hcap)|].
  intros st f f' st' q'' Hf Hu.
  destruct (update_state_read_ok q' st 0 c f f' st' q'' Hcap Hf Hu) as [-> ->].
  split; [reflexivity|].
  destruct (after_read_fields q' 0 c) as (_ & _ & _ & ->).
  unfold read. now rewrite Hf.
Qed.

Lemma C10_reset_keeps_decode_positions_witness :
  reset Examples.deck_cut = Ok Examples.deck_cut_reset
  /\ dispatch_key BACK_KEY Examples.session_second = Ok Examples.session_back
  /\ returned_state (update_state PLAYING Examples.deck_cut_reset) = Some PLAYING
  /\ exists d' q',
       dispatch_key BACK_KEY Examples.session_second = Ok d'
       /\ current_presentation_i d' = 0
       /\ current_presentation d' = Ok q'
       /\ caps q' = [Examples.video [1; 2]%N 1]
       /\ current_cap q' = Ok (Examples.video [1; 2]%N 1)
       /\ forall st f f' st' q'',
            frames (Examples.video [1; 2]%N 1) !! 1%nat = Some f ->
            update_state st q' = Ok (f', st', q'') ->
            f' = f /\ caps q'' = [Examples.video [1; 2]%N 2].
Proof.
  destruct (C10_reset_keeps_decode_positions Examples.session_second 0
              Examples.deck_second Examples.deck_cut
              (mkSlide "last" 0 1 1 (Some true)) (Examples.video [1; 2]%N 1))
    as (H1 & _ & H3); try reflexivity.
  split; [exact H1|]. split; [reflexivity|]. split; [reflexivity|]. exact H3.
Defined.

End Sequencer.

(** ** Invariants of the playback state machine *)

Section DeckInvariants.
Import Present Deck Invariant.
Implicit Types (p : Presentation) (s : Slide) (c : VideoCapture) (st : State).

Lemma valid_slide_set_terminated n b s :
  valid_slide n s -> valid_slide n (set_terminated b s).
Proof. intros (H1 & H2 & _). repeat split; try assumption; simpl; lia || discriminate. Qed.

Lemma footage_insert p k c c' :
  caps p !! k = Some c -> frames c' = frames c -> prop_fps c' = prop_fps c ->
  (fun x => (frames x, prop_fps x)) <$> <[k := c']> (caps p) = footage p.
Proof.
  intros Hk Hf Hr. unfold footage. rewrite list_fmap_insert. apply list_insert_id.
  rewrite list_lookup_fmap, Hk. simpl. congruence.
Qed.

Lemma read_same_footage c :
  frames (snd (read c)) = frames c /\ prop_fps (snd (read c)) = prop_fps c.
Proof. unfold read. destruct (frames c !! pos_frames c); split; reflexivity. Qed.

(** What a deck in working order offers: its current slide, valid, and
    the capture under the segment index. *)
Lemma deck_ok_cursor p :
  deck_ok p ->
  exists ks s c,
    current_slide_i p = Z.of_nat ks
    /\ slides p !! ks = Some s
    /\ valid_slide (length (caps p)) s
    /\ start_animation s <= current_animation p < end_animation s
    /\ cap_at p (current_animation p) (Z.to_nat (current_animation p)) c.
Proof.
  intros (Hi & Hv & s & Hs & Hr).
  assert (Hk : slides p !! Z.to_nat (current_slide_i p) = Some s).
  { unfold slide_index_ok in Hi. unfold current_slide in Hs.
    rewrite <- (Z2Nat.id (current_slide_i p)) in Hs by lia.
    destruct (lookup_lt_is_Some_2 (slides p) (Z.to_nat (current_slide_i p)))
      as [s' Hs']; [lia|].
    rewrite (getitem_nat _ _ _ Hs') in Hs. congruence. }
  pose proof (proj1 (Forall_lookup _ _) Hv _ _ Hk) as Hvs.
  destruct (cap_at_nonneg p (current_animation p)) as (c & Hc).
  { destruct Hvs as (? & ? & _). lia. }
  exists (Z.to_nat (current_slide_i p)), s, c.
  unfold slide_index_ok in Hi.
  split; [lia|]. split; [exact Hk|]. split; [exact Hvs|].
  split; [exact Hr|exact Hc].
Qed.

(** A deck that differs from one in working order by decode positions,
    [terminated] entries kept valid, and cursors still in range. *)
Lemma deck_ok_build p' n ks s :
  Forall (valid_slide n) (slides p') ->
  length (caps p') = n ->
  current_slide_i p' = Z.of_nat ks ->
  slides p' !! ks = Some s ->
  start_animation s <= current_animation p' < end_animation s ->
  deck_ok p'.
Proof.
  intros Hv Hn Hi Hs Hr. split; [|split].
  - unfold slide_index_ok. apply lookup_lt_Some in Hs. lia.
  - now rewrite Hn.
  - exists s. split; [|exact Hr]. unfold current_slide. rewrite Hi.
    now apply getitem_nat.
Qed.

Lemma deck_ok_valid_at p ks s :
  deck_ok p -> slides p !! ks = Some s -> valid_slide (length (caps p)) s.
Proof. intros (_ & Hv & _) Hs. exact (proj1 (Forall_lookup _ _) Hv _ _ Hs). Qed.

(** [rewind] from a slide index in range of valid slides. *)
Lemma rewind_ok p ks s :
  Forall (valid_slide (length (caps p))) (slides p) ->
  current_slide_i p = Z.of_nat ks ->
  slides p !! ks = Some s ->
  exists p',
    rewind p = Ok p'
    /\ deck_ok p'
    /\ slides p' = slides p
    /\ current_slide_i p' = current_slide_i p
    /\ current_animation p' = start_animation s
    /\ lastframe p' = lastframe p
    /\ footage p' = footage p.
Proof.
  intros Hv Hi Hs.
  pose proof (proj1 (Forall_lookup _ _) Hv _ _ Hs) as (Hr & He & _).
  destruct (cap_at_nonneg p (start_animation s)) as (c0 & Hc0); [lia|].
  eexists. split.
  { apply (rewind_at p ks s (Z.to_nat (start_animation s)) c0); [|exact Hc0].
    split; [|exact Hs].
    rewrite Hi. apply py_index_nat. eapply lookup_lt_Some; eauto. }
  split; [|repeat split].
  - apply (deck_ok_build _ (length (caps p)) ks s); simpl; try assumption.
    + apply length_insert.
    + lia.
  - apply (footage_insert p (Z.to_nat (start_animation s)) c0);
      [apply Hc0|reflexivity|reflexivity].
Qed.

Lemma outline_set_terminated p k s b :
  slides p !! k = Some s ->
  (fun x => (type x, start_animation x, end_animation x, number x))
    <$> <[k := set_terminated b s]> (slides p) = outline p.
Proof.
  intros Hk. unfold outline. rewrite list_fmap_insert. apply list_insert_id.
  now rewrite list_lookup_fmap, Hk.
Qed.

Lemma navigation_deck_ok p :
  deck_ok p ->
  (exists p', rewind p = Ok p' /\ deck_ok p' /\ footage p' = footage p
              /\ slides p' = slides p
              /\ current_slide_i p' = current_slide_i p)
  /\ (exists p', prev p = Ok p' /\ deck_ok p' /\ footage p' = footage p
                 /\ slides p' = slides p
                 /\ current_slide_i p' = Z.max 0 (current_slide_i p - 1))
  /\ (exists p', next p = Ok p' /\ deck_ok p' /\ footage p' = footage p
                 /\ outline p' = outline p).
Proof.
  intros Hok. destruct (deck_ok_cursor p Hok) as (ks & s & c & Hi & Hs & Hvs & Hr & Hc).
  pose proof Hok as (Hidx & Hv & _).
  split; [|split].
  - destruct (rewind_ok p ks s Hv Hi Hs) as (p' & H1 & H2 & H3 & H4 & _ & _ & H5).
    exists p'. split; [exact H1|]. split; [exact H2|]. split; [exact H5|].
    split; [exact H3|exact H4].
  - destruct (lookup_lt_is_Some_2 (slides p) (Nat.pred ks)) as [s' Hs'].
    { apply lookup_lt_Some in Hs. lia. }
    destruct (rewind_ok (set_current_slide_i (Z.of_nat (Nat.pred ks)) p)
                (Nat.pred ks) s' Hv eq_refl Hs')
      as (p' & H1 & H2 & H3 & H4 & _ & _ & H5).
    exists p'. unfold prev. rewrite Hi.
    replace (Z.max 0 (Z.of_nat ks - 1)) with (Z.of_nat (Nat.pred ks)) by lia.
    split; [exact H1|]. split; [exact H2|]. split; [exact H5|].
    split; [exact H3|exact H4].
  - assert (Hat : slide_at p (current_slide_i p) ks s).
    { split; [|exact Hs]. rewrite Hi. apply py_index_nat.
      eapply lookup_lt_Some; eauto. }
    destruct (String.eqb_spec (type s) "last") as [Ht|Ht].
    + rewrite (next_terminal p ks s Hat Ht). eexists. split; [reflexivity|].
      split; [|split].
      * apply (deck_ok_build _ (length (caps p)) ks (set_terminated true s));
          simpl; try assumption; try reflexivity.
        -- apply Forall_insert; [exact Hv|].
           now apply valid_slide_set_terminated.
        -- apply list_lookup_insert_eq. eapply lookup_lt_Some; eauto.
      * reflexivity.
      * now apply outline_set_terminated.
    + rewrite (next_forward p ks s Hat Ht).
      set (j := Nat.min (Nat.pred (length (slides p))) (S ks)).
      assert (Hlt : (ks < length (slides p))%nat) by (eapply lookup_lt_Some; eauto).
      replace (Z.min (Z.of_nat (length (slides p)) - 1) (current_slide_i p + 1))
        with (Z.of_nat j) by (unfold j; lia).
      destruct (lookup_lt_is_Some_2 (slides p) j) as [s' Hs']; [unfold j; lia|].
      destruct (rewind_ok (set_current_slide_i (Z.of_nat j) p) j s' Hv eq_refl Hs')
        as (p' & H1 & H2 & H3 & _ & _ & _ & H5).
      exists p'. split; [exact H1|]. split; [exact H2|]. split; [exact H5|].
      unfold outline. now rewrite H3.
Qed.

(** X1. On a deck in working order [rewind], [prev] and [next] never
    raise and leave a deck in working order; they change no frame, no
    frame rate and nothing of a slide but its [terminated] entry.
    [rewind] stays on the slide, [prev] goes to [max 0 (i - 1)]. *)
Theorem X1_navigation_keeps_deck_ok p :
  deck_ok p ->
  (exists p', rewind p = Ok p' /\ deck_ok p' /\ footage p' = footage p
              /\ slides p' = slides p
              /\ current_slide_i p' = current_slide_i p)
  /\ (exists p', prev p = Ok p' /\ deck_ok p' /\ footage p' = footage p
                 /\ slides p' = slides p
                 /\ current_slide_i p' = Z.max 0 (current_slide_i p - 1))
  /\ (exists p', next p = Ok p' /\ deck_ok p' /\ footage p' = footage p
                 /\ outline p' = outline p).
Proof. exact (navigation_deck_ok p). Qed.

Lemma X1_navigation_keeps_deck_ok_witness :
  (exists p', rewind Examples.deck_last = Ok p' /\ deck_ok p'
              /\ footage p' = footage Examples.deck_last
              /\ slides p' = slides Examples.deck_last
              /\ current_slide_i p' = 2)
  /\ (exists p', prev Examples.deck_last = Ok p' /\ deck_ok p'
                 /\ footage p' = footage Examples.deck_last
                 /\ slides p' = slides Examples.deck_last
                 /\ current_slide_i p' = 1)
  /\ (exists p', next Examples.deck_last = Ok p' /\ deck_ok p'
                 /\ footage p' = footage Examples.deck_last
                 /\ outline p' = outline Examples.deck_last).
Proof.
  apply (X1_navigation_keeps_deck_ok Examples.deck_last).
  split; [|split].
  - unfold slide_index_ok. simpl. lia.
  - repeat constructor; simpl; try lia; discriminate.
  - eexists. split; [reflexivity|]. simpl. lia.
Defined.

Lemma after_read_lastframe_eq p k c :
  fst (read c) = None -> lastframe (after_read p k c) = lastframe p.
Proof. intros H. unfold after_read. now rewrite H. Qed.

Lemma after_read_ok p ks s k c :
  deck_ok p ->
  current_slide_i p = Z.of_nat ks -> slides p !! ks = Some s ->
  start_animation s <= current_animation p < end_animation s ->
  cap_at p (current_animation p) k c ->
  deck_ok (after_read p k c) /\ footage (after_read p k c) = footage p.
Proof.
  intros (_ & Hv & _) Hi Hs Hr [_ Hc].
  destruct (after_read_fields p k c) as (Hsl & Hi' & Ha & Hcaps). split.
  - apply (deck_ok_build _ (length (caps p)) ks s).
    + now rewrite Hsl.
    + rewrite Hcaps. apply length_insert.
    + congruence.
    + now rewrite Hsl.
    + now rewrite Ha.
  - unfold footage at 1. rewrite Hcaps.
    destruct (read_same_footage c) as [Hf Hfps].
    now apply (footage_insert p k c).
Qed.

Lemma update_state_deck_ok p st :
  deck_ok p ->
  (forall c, current_cap p = Ok c -> lastframe p <> None \/ ~ exhausted c) ->
  exists f st' p',
    update_state st p = Ok (f, st', p')
    /\ deck_ok p'
    /\ lastframe p' = Some f
    /\ footage p' = footage p
    /\ slides p' = slides p
    /\ current_slide_i p' = current_slide_i p.
Proof.
  intros Hok Hframe.
  destruct (deck_ok_cursor p Hok) as (ks & s & c & Hi & Hs & Hvs & Hr & Hc).
  set (k := Z.to_nat (current_animation p)) in *.
  specialize (Hframe c (current_cap_at p k c Hc)).
  destruct (after_read_ok p ks s k c Hok Hi Hs Hr Hc) as (Hq & Hfq).
  destruct (after_read_fields p k c) as (Hsl & Hi' & Ha & Hcaps).
  destruct (after_read_lastframe p k c Hframe) as (f & Hl).
  rewrite (update_state_unfold st p k c Hc). cbv zeta.
  set (q := after_read p k c) in *.
  assert (Hgl : forall A (K : frame -> result A),
             (x <- get_lastframe q ;; K x) = K f).
  { intros A K. unfold get_lastframe. now rewrite Hl. }
  assert (Hdone : forall st', exists f0 st0 p0,
             Ok (f, st', q) = Ok (f0, st0, p0) /\ deck_ok p0 /\ lastframe p0 = Some f0
             /\ footage p0 = footage p /\ slides p0 = slides p
             /\ current_slide_i p0 = current_slide_i p).
  { intros st'. exists f, st', q. repeat split; try assumption; apply Hq. }
  destruct (State_eqb st WAIT || State_eqb st PAUSED).
  { rewrite Hgl. apply Hdone. }
  assert (Hcs : current_slide q = Ok s).
  { unfold current_slide. rewrite Hsl, Hi', Hi. now apply getitem_nat. }
  rewrite Hcs. simpl.
  assert (Hterm : exists b,
    (if (type s =? "last")%string then get_terminated s else Ok false) = Ok b).
  { destruct (String.eqb_spec (type s) "last") as [E|_]; [|eauto].
    unfold get_terminated. destruct (terminated s) as [b|] eqn:Et; [eauto|].
    destruct Hvs as (_ & _ & Hkey). now destruct (Hkey E). }
  destruct Hterm as ([|] & ->); simpl.
  { rewrite Hgl. apply Hdone. }
  destruct (fst (read c)) as [f1|] eqn:Er; simpl.
  { rewrite Hgl. apply Hdone. }
  pose proof Hq as (_ & Hvq & _).
  assert (Hlenq : length (caps q) = length (caps p))
    by (rewrite Hcaps; apply length_insert).
  destruct (Z.eqb_spec (end_animation s) (current_animation q + 1)) as [E|E].
  - destruct (type s =? "slide")%string; [simpl; rewrite Hgl; apply Hdone|].
    destruct (type s =? "loop")%string.
    + destruct (rewind_ok (set_current_animation (start_animation s) q) ks s)
        as (q' & H1 & H2 & H3 & H4 & _ & H6 & H7).
      * exact Hvq.
      * simpl. congruence.
      * simpl. now rewrite Hsl.
      * rewrite H1. simpl. unfold get_lastframe. rewrite H6. simpl. rewrite Hl. simpl.
        exists f, PLAYING, q'. split; [reflexivity|]. split; [exact H2|].
        split; [rewrite H6; exact Hl|]. split; [|split].
        -- rewrite H7. exact Hfq.
        -- rewrite H3. exact Hsl.
        -- rewrite H4. exact Hi'.
    + destruct (type s =? "last")%string; simpl; rewrite Hgl; apply Hdone.
  - destruct ((type s =? "last")%string && (end_animation s =? current_animation q));
      [simpl; rewrite Hgl; apply Hdone|].
    destruct Hvs as (Hs0 & Hend & _).
    destruct (cap_at_nonneg q (current_animation q + 1)) as (c1 & H1 & H2).
    { rewrite Hlenq, Ha. lia. }
    unfold current_cap_seek0. simpl.
    rewrite (moditem_at seek0 _ _ _ _ H1 H2). simpl.
    unfold get_lastframe. simpl. rewrite Hl. simpl.
    eexists f, st, _. split; [reflexivity|]. split; [|split; [exact Hl|split; [|split]]].
    + apply (deck_ok_build _ (length (caps p)) ks s); simpl.
      * rewrite <- Hlenq. exact Hvq.
      * rewrite length_insert. exact Hlenq.
      * congruence.
      * now rewrite Hsl.
      * rewrite Ha in *. lia.
    + unfold footage at 1. simpl.
      rewrite (footage_insert q _ c1 (seek0 c1) H2 eq_refl eq_refl). exact Hfq.
    + exact Hsl.
    + exact Hi'.
Qed.

(** X2. On a deck in working order that has a frame to show (one
    cached, or one to read), [update_state] never raises, whatever the
    incoming state; it returns the frame it leaves cached and a deck in
    working order, and it changes neither the slides, nor the slide
    index, nor the content of any capture. *)
Theorem X2_update_state_keeps_deck_ok p st :
  deck_ok p ->
  (forall c, current_cap p = Ok c -> lastframe p <> None \/ ~ exhausted c) ->
  exists f st' p',
    update_state st p = Ok (f, st', p')
    /\ deck_ok p'
    /\ lastframe p' = Some f
    /\ footage p' = footage p
    /\ slides p' = slides p
    /\ current_slide_i p' = current_slide_i p.
Proof. exact (update_state_deck_ok p st). Qed.

Lemma X2_update_state_keeps_deck_ok_witness :
  exists f st' p',
    update_state PLAYING Examples.deck_last = Ok (f, st', p')
    /\ deck_ok p'
    /\ lastframe p' = Some f
    /\ footage p' = footage Examples.deck_last
    /\ slides p' = slides Examples.deck_last
    /\ current_slide_i p' = 2.
Proof.
  apply (X2_update_state_keeps_deck_ok Examples.deck_last PLAYING).
  - split; [|split].
    + unfold slide_index_ok. simpl. lia.
    + repeat constructor; simpl; try lia; discriminate.
    + eexists. split; [reflexivity|]. simpl. lia.
  - intros c _. left. discriminate.
Defined.

(** X3. [__init__] raises [IndexError] on an empty slide list.  On any
    other it returns the slides of the file with only the last one
    changed (typed ["last"], not terminated), one capture per file, both
    cursors at 0 and no cached frame; and when the file meets the
    load-time constraints and its first slide starts at segment 0, the
    deck is in working order. *)
Theorem X3_init_builds_deck open ss files :
  (ss = [] -> init open ss files = Raise IndexError)
  /\ (forall s0, last ss = Some s0 ->
        init open ss files
        = Ok (mkPresentation
                (<[Nat.pred (length ss) :=
                     mkSlide "last" (start_animation s0) (end_animation s0)
                             (number s0) (Some false)]> ss)
                (open <$> files) 0 0 None))
  /\ (forall p s1,
        init open ss files = Ok p ->
        valid_config ss files ->
        ss !! 0%nat = Some s1 -> start_animation s1 = 0 ->
        deck_ok p).
Proof.
  split; [|split].
  - intros ->. reflexivity.
  - intros s0 Hl.
    destruct (init_ok open ss files) as [p Hp]; [intros ->; discriminate|].
    destruct (init_inv open ss files p Hp) as (s0' & Hl' & ->).
    rewrite Hp. congruence.
  - intros p s1 Hp Hv H1 Hstart.
    destruct (init_inv open ss files p Hp) as (s0 & Hl & ->).
    set (n := Nat.pred (length ss)).
    assert (Hn : (n < length ss)%nat).
    { rewrite last_lookup in Hl. apply lookup_lt_Some in Hl. exact Hl. }
    assert (Hv' : Forall (valid_slide (length files))
                    (<[n := mkSlide "last" (start_animation s0) (end_animation s0)
                                    (number s0) (Some false)]> ss)).
    { apply Forall_insert; [exact Hv|]. apply valid_slide_coerced.
      rewrite last_lookup in Hl. exact (proj1 (Forall_lookup _ _) Hv _ _ Hl). }
    destruct (lookup_lt_is_Some_2
                (<[n := mkSlide "last" (start_animation s0) (end_animation s0)
                                (number s0) (Some false)]> ss) 0) as [s Hs].
    { rewrite length_insert. lia. }
    apply (deck_ok_build _ (length files) 0 s); simpl.
    + exact Hv'.
    + apply length_fmap.
    + reflexivity.
    + exact Hs.
    + pose proof (proj1 (Forall_lookup _ _) Hv' _ _ Hs) as (Hr & _).
      apply list_lookup_insert_Some in Hs as [(Hz & <- & _)|(_ & Hs)].
      * rewrite last_lookup in Hl. fold n in Hl. rewrite Hz, H1 in Hl.
        injection Hl as <-. simpl in *. lia.
      * rewrite H1 in Hs. injection Hs as <-. lia.
Qed.

Lemma X3_init_builds_deck_witness :
  init Examples.open_demo [] Examples.demo_files = Raise IndexError
  /\ init Examples.open_demo Examples.demo_slides Examples.demo_files
     = Ok Examples.deck_start
  /\ deck_ok Examples.deck_start.
Proof.
  destruct (X3_init_builds_deck Examples.open_demo Examples.demo_slides
              Examples.demo_files) as (_ & H2 & H3).
  split; [|split].
  - apply (proj1 (X3_init_builds_deck Examples.open_demo [] Examples.demo_files)).
    reflexivity.
  - apply (H2 (mkSlide "slide" 2 3 3 None)). reflexivity.
  - apply (H3 Examples.deck_start (mkSlide "slide" 0 1 1 None)).
    + reflexivity.
    + repeat constructor; simpl; try lia; discriminate.
    + reflexivity.
    + reflexivity.
Defined.

Lemma reset_behaviour p :
  (slides p = [] -> reset p = Raise IndexError)
  /\ (forall p', reset p = Ok p' ->
        reset p' = Ok p'
        /\ caps p' = caps p /\ lastframe p' = lastframe p
        /\ outline p' = outline p
        /\ current_slide_i p' = 0 /\ current_animation p' = 0
        /\ last_terminated p' = Some false)
  /\ (forall s1, deck_ok p -> slides p !! 0%nat = Some s1 ->
        start_animation s1 = 0 ->
        exists p', reset p = Ok p' /\ deck_ok p').
Proof.
  split; [|split].
  - intros H. unfold reset. simpl. now rewrite H.
  - intros p'. unfold reset. simpl.
    destruct (moditem _ _ _) as [l'|] eqn:Em; [simpl|discriminate].
    intros [= <-]. apply moditem_last_inv in Em as (x & Hx & ->).
    set (n := Nat.pred (length (slides p))).
    assert (Hn : slides p !! n = Some x)
      by (unfold n; rewrite <- last_lookup; exact Hx).
    assert (Hlast : last (<[n := set_terminated false x]> (slides p))
                    = Some (set_terminated false x)).
    { rewrite last_lookup, length_insert. fold n.
      apply list_lookup_insert_eq. eapply lookup_lt_Some; eauto. }
    split.
    { simpl. rewrite (moditem_last _ _ _ Hlast). simpl.
      rewrite length_insert. fold n. now rewrite list_insert_insert_eq. }
    repeat split.
    + now apply outline_set_terminated.
    + unfold last_terminated. simpl. now rewrite Hlast.
  - intros s1 Hok H1 Hstart. pose proof Hok as (_ & Hv & _).
    destruct (last (slides p)) as [x|] eqn:Hx.
    2:{ apply last_None in Hx. rewrite Hx in H1. discriminate. }
    rewrite (reset_at p x Hx). eexists. split; [reflexivity|].
    set (n := Nat.pred (length (slides p))).
    assert (Hn : slides p !! n = Some x)
      by (unfold n; rewrite <- last_lookup; exact Hx).
    destruct (lookup_lt_is_Some_2 (<[n := set_terminated false x]> (slides p)) 0)
      as [s Hs].
    { rewrite length_insert. apply lookup_lt_Some in H1. lia. }
    apply (deck_ok_build _ (length (caps p)) 0 s); simpl.
    + apply Forall_insert; [exact Hv|]. apply valid_slide_set_terminated.
      exact (proj1 (Forall_lookup _ _) Hv _ _ Hn).
    + reflexivity.
    + reflexivity.
    + exact Hs.
    + apply list_lookup_insert_Some in Hs as [(Hz & <- & _)|(_ & Hs)].
      * rewrite Hz, H1 in Hn. injection Hn as <-.
        pose proof (proj1 (Forall_lookup _ _) Hv _ _ H1) as (Hr & _).
        simpl. lia.
      * rewrite H1 in Hs. injection Hs as <-.
        pose proof (proj1 (Forall_lookup _ _) Hv _ _ H1) as (Hr & _). lia.
Qed.

(** X4. [reset] raises [IndexError] on a deck without slides and
    nothing else.  Where it returns, it has touched no capture and no
    cached frame, changed nothing of a slide but a [terminated] entry,
    and a second [reset] changes nothing more.  On a deck in working
    order whose first slide starts at segment 0 it leaves a deck in
    working order. *)
Theorem X4_reset_behaviour p :
  (slides p = [] -> reset p = Raise IndexError)
  /\ (forall p', reset p = Ok p' ->
        reset p' = Ok p'
        /\ caps p' = caps p /\ lastframe p' = lastframe p
        /\ outline p' = outline p
        /\ current_slide_i p' = 0 /\ current_animation p' = 0
        /\ last_terminated p' = Some false)
  /\ (forall s1, deck_ok p -> slides p !! 0%nat = Some s1 ->
        start_animation s1 = 0 ->
        exists p', reset p = Ok p' /\ deck_ok p').
Proof. exact (reset_behaviour p). Qed.

Lemma X4_reset_behaviour_witness :
  reset (mkPresentation [] [] 3 2 None) = Raise IndexError
  /\ reset Examples.deck_cut_reset = Ok Examples.deck_cut_reset
  /\ exists p', reset Examples.deck_ended = Ok p' /\ deck_ok p'.
Proof.
  split; [|split].
  - apply (proj1 (X4_reset_behaviour (mkPresentation [] [] 3 2 None))).
    reflexivity.
  - apply (proj1 (proj2 (X4_reset_behaviour Examples.deck_cut))). reflexivity.
  - apply (proj2 (proj2 (X4_reset_behaviour Examples.deck_ended))
             (mkSlide "slide" 0 1 1 None)).
    + split; [|split].
      * unfold slide_index_ok. simpl. lia.
      * repeat constructor; simpl; try lia; discriminate.
      * eexists. split; [reflexivity|]. simpl. lia.
    + reflexivity.
    + reflexivity.
Defined.

Lemma seek0_seek0 c : seek0 (seek0 c) = seek0 c.
Proof. reflexivity. Qed.

(** X5. [rewind] is idempotent: where it returns, a second [rewind]
    returns the same deck. *)
Theorem X5_rewind_idempotent p p' :
  rewind p = Ok p' -> rewind p' = Ok p'.
Proof.
  intros H. apply rewind_inv in H as (s & k0 & c0 & Hs & [H1 H2] & ->).
  apply current_slide_inv in Hs as (ks & Hks).
  rewrite (rewind_at _ ks s k0 (seek0 c0)).
  - simpl. now rewrite list_insert_insert_eq.
  - exact Hks.
  - split; simpl.
    + now rewrite length_insert.
    + apply list_lookup_insert_eq. eapply lookup_lt_Some; eauto.
Qed.

Lemma X5_rewind_idempotent_witness :
  rewind (mkPresentation (Examples.loaded_slides false)
            [Examples.video [1; 2]%N 2; Examples.video [3]%N 1;
             Examples.video [4; 5]%N 0] 2 2 (Some 4%N))
  = Ok (mkPresentation (Examples.loaded_slides false)
            [Examples.video [1; 2]%N 2; Examples.video [3]%N 1;
             Examples.video [4; 5]%N 0] 2 2 (Some 4%N)).
Proof. apply (X5_rewind_idempotent Examples.deck_last). reflexivity. Defined.

(** X6. Going forward and back returns to the slide one left, at its
    first segment: from a slide that is not of type ["last"] and has a
    successor, [next] then [prev] ends on the same slide index with the
    segment index at its [start_animation]; the slides are untouched. *)
Theorem X6_next_then_prev p ks s p1 p2 :
  current_slide_i p = Z.of_nat ks ->
  slides p !! ks = Some s ->
  type s <> "last"%string ->
  (S ks < length (slides p))%nat ->
  next p = Ok p1 -> prev p1 = Ok p2 ->
  current_slide_i p1 = Z.of_nat (S ks)
  /\ current_slide_i p2 = Z.of_nat ks
  /\ current_animation p2 = start_animation s
  /\ slides p2 = slides p.
Proof.
  intros Hi Hs Ht Hlen H1 H2.
  assert (Hat : slide_at p (current_slide_i p) ks s).
  { split; [|exact Hs]. rewrite Hi. apply py_index_nat. lia. }
  rewrite (next_forward p ks s Hat Ht) in H1.
  replace (Z.min (Z.of_nat (length (slides p)) - 1) (current_slide_i p + 1))
    with (Z.of_nat (S ks)) in H1 by lia.
  apply rewind_inv in H1 as (s1 & k1 & c1 & _ & _ & ->).
  split; [reflexivity|].
  unfold prev in H2. simpl in H2.
  replace (Z.max 0 (Z.of_nat (S ks) - 1)) with (Z.of_nat ks) in H2 by lia.
  apply rewind_inv in H2 as (s2 & k2 & c2 & Hs2 & _ & ->).
  unfold current_slide in Hs2. simpl in Hs2.
  rewrite (getitem_nat _ _ _ Hs) in Hs2. injection Hs2 as <-.
  repeat split.
Qed.

Lemma X6_next_then_prev_witness :
  current_slide_i
    (mkPresentation (Examples.loaded_slides false)
       [Examples.video [1; 2]%N 1; Examples.video [3]%N 0;
        Examples.video [4; 5]%N 0] 1 1 (Some 1%N)) = 1
  /\ current_slide_i
       (mkPresentation (Examples.loaded_slides false)
          [Examples.video [1; 2]%N 0; Examples.video [3]%N 0;
           Examples.video [4; 5]%N 0] 0 0 (Some 1%N)) = 0
  /\ current_animation
       (mkPresentation (Examples.loaded_slides false)
          [Examples.video [1; 2]%N 0; Examples.video [3]%N 0;
           Examples.video [4; 5]%N 0] 0 0 (Some 1%N)) = 0
  /\ Examples.loaded_slides false = slides Examples.deck_playing.
Proof.
  apply (X6_next_then_prev Examples.deck_playing 0 (mkSlide "slide" 0 1 1 None)).
  - reflexivity.
  - reflexivity.
  - discriminate.
  - simpl. lia.
  - reflexivity.
  - reflexivity.
Defined.

(** A successful read on a slide that is not a terminated last slide. *)
Lemma update_state_reads p st k c f s :
  cap_at p (current_animation p) k c ->
  frames c !! pos_frames c = Some f ->
  current_slide p = Ok s ->
  (type s = "last"%string -> terminated s = Some false) ->
  update_state st p
  = Ok (f, st,
        mkPresentation (slides p)
          (<[k := mkCap (frames c) (S (pos_frames c)) (prop_fps c)]> (caps p))
          (current_animation p) (current_slide_i p) (Some f)).
Proof.
  intros Hc Hf Hs Ht. rewrite (update_state_unfold st p k c Hc). cbv zeta.
  assert (Hr : read c = (Some f, mkCap (frames c) (S (pos_frames c)) (prop_fps c)))
    by (unfold read; now rewrite Hf).
  unfold after_read. rewrite Hr. simpl.
  destruct (State_eqb st WAIT || State_eqb st PAUSED); [reflexivity|].
  unfold current_slide in *. simpl. rewrite Hs. simpl.
  destruct (String.eqb_spec (type s) "last") as [E|_]; [|reflexivity].
  unfold get_terminated. now rewrite (Ht E).
Qed.

(** X7. As long as the segment under the cursor has frames left, and
    the deck is not on a terminated last slide, successive calls of
    [update_state] return its frames in order, none skipped, with the
    state they were entered in: this holds for every incoming state,
    [PAUSED] and [WAIT] included, so a paused deck keeps consuming its
    segment.  The cursors and slides do not move; only the decode
    position of that one capture does. *)
Theorem X7_frames_in_order (n : nat) p st k c s :
  cap_at p (current_animation p) k c ->
  current_slide p = Ok s ->
  (type s = "last"%string -> terminated s = Some false) ->
  (pos_frames c + n <= length (frames c))%nat ->
  exists p',
    play n st p = Ok (take n (drop (pos_frames c) (frames c)), st, p')
    /\ caps p' = <[k := mkCap (frames c) (pos_frames c + n) (prop_fps c)]> (caps p)
    /\ slides p' = slides p
    /\ current_slide_i p' = current_slide_i p
    /\ current_animation p' = current_animation p.
Proof.
  revert p c. induction n as [|n IH]; intros p c Hc Hs Ht Hn.
  - exists p. simpl. rewrite Nat.add_0_r. repeat split.
    symmetry. apply list_insert_id. destruct c. apply Hc.
  - destruct (lookup_lt_is_Some_2 (frames c) (pos_frames c)) as [f Hf]; [lia|].
    pose proof (update_state_reads p st k c f s Hc Hf Hs Ht) as Hu.
    set (c' := mkCap (frames c) (S (pos_frames c)) (prop_fps c)) in *.
    set (p1 := mkPresentation _ _ _ _ _) in Hu.
    destruct (IH p1 c') as (p' & Hp & Hcaps & Hsl & Hi & Ha).
    + destruct Hc as [H1 H2]. split; simpl.
      * now rewrite length_insert.
      * apply list_lookup_insert_eq. eapply lookup_lt_Some; eauto.
    + exact Hs.
    + exact Ht.
    + simpl. lia.
    + exists p'. simpl play. rewrite Hu. simpl. rewrite Hp. simpl.
      split.
      { rewrite (drop_S _ _ _ Hf). reflexivity. }
      split; [|repeat split; assumption].
      rewrite Hcaps. simpl. rewrite list_insert_insert_eq.
      do 2 f_equal. lia.
Qed.

Lemma X7_frames_in_order_witness :
  exists p',
    play 2 PAUSED Examples.deck_start = Ok ([1; 2]%N, PAUSED, p')
    /\ caps p' = [Examples.video [1; 2]%N 2; Examples.video [3]%N 0;
                  Examples.video [4; 5]%N 0]
    /\ slides p' = Examples.loaded_slides false
    /\ current_slide_i p' = 0
    /\ current_animation p' = 0.
Proof.
  apply (X7_frames_in_order 2 Examples.deck_start PAUSED 0
           (Examples.video [1; 2]%N 0) (mkSlide "slide" 0 1 1 None)).
  - split; reflexivity.
  - reflexivity.
  - discriminate.
  - simpl. lia.
Defined.

(** X8. When the read fails on the last segment of a slide of type
    ["slide"], or of type ["last"] and not terminated, [update_state]
    entered in a state other than [WAIT] and [PAUSED] returns [WAIT] with
    the cached frame and leaves the deck exactly as it was. *)
Theorem X8_slide_end_waits p st s k c f :
  st <> WAIT -> st <> PAUSED ->
  current_slide p = Ok s ->
  type s = "slide"%string
    \/ (type s = "last"%string /\ terminated s = Some false) ->
  cap_at p (current_animation p) k c ->
  exhausted c ->
  end_animation s = current_animation p + 1 ->
  lastframe p = Some f ->
  update_state st p = Ok (f, WAIT, p).
Proof.
  intros Hw Hp Hs Ht Hc Hex Hend Hf.
  rewrite (update_state_unfold st p k c Hc).
  rewrite (after_read_exhausted p k c (proj2 Hc) Hex).
  rewrite (read_exhausted c Hex). cbv zeta.
  replace (State_eqb st WAIT || State_eqb st PAUSED) with false
    by (destruct st; simpl; congruence).
  rewrite Hs. simpl. rewrite Hend, Z.eqb_refl. unfold get_lastframe.
  destruct Ht as [Ht|[Ht Hterm]]; rewrite Ht; simpl.
  - now rewrite Hf.
  - unfold get_terminated. rewrite Hterm. simpl. now rewrite Hf.
Qed.

Lemma X8_slide_end_waits_witness :
  update_state PLAYING
    (mkPresentation (Examples.loaded_slides false)
       [Examples.video [1; 2]%N 2; Examples.video [3]%N 1;
        Examples.video [4; 5]%N 2] 2 2 (Some 5%N))
  = Ok (5%N, WAIT,
        mkPresentation (Examples.loaded_slides false)
          [Examples.video [1; 2]%N 2; Examples.video [3]%N 1;
           Examples.video [4; 5]%N 2] 2 2 (Some 5%N)).
Proof.
  apply (X8_slide_end_waits _ PLAYING (mkSlide "last" 2 3 3 (Some false)) 2
           (Examples.video [4; 5]%N 2)).
  - discriminate.
  - discriminate.
  - reflexivity.
  - right. split; reflexivity.
  - split; reflexivity.
  - reflexivity.
  - reflexivity.
  - reflexivity.
Defined.

(** X9. When the read fails on a segment that is not the last of its
    slide, [update_state] entered in a state other than [WAIT] and
    [PAUSED] moves the segment index forward by one, seeks the segment it
    reaches to its first frame, and returns the cached frame with the
    state unchanged. *)
Theorem X9_next_segment p st s k c k1 c1 f :
  st <> WAIT -> st <> PAUSED ->
  current_slide p = Ok s ->
  (type s = "last"%string ->
   terminated s = Some false /\ end_animation s <> current_animation p) ->
  cap_at p (current_animation p) k c ->
  exhausted c ->
  end_animation s <> current_animation p + 1 ->
  cap_at p (current_animation p + 1) k1 c1 ->
  lastframe p = Some f ->
  update_state st p
  = Ok (f, st,
        mkPresentation (slides p) (<[k1 := seek0 c1]> (caps p))
                       (current_animation p + 1) (current_slide_i p) (Some f)).
Proof.
  intros Hw Hp Hs Ht Hc Hex Hend [H1 H2] Hf.
  rewrite (update_state_unfold st p k c Hc).
  rewrite (after_read_exhausted p k c (proj2 Hc) Hex).
  rewrite (read_exhausted c Hex). cbv zeta.
  replace (State_eqb st WAIT || State_eqb st PAUSED) with false
    by (destruct st; simpl; congruence).
  rewrite Hs. simpl.
  assert (Hterm : (if (type s =? "last")%string then get_terminated s else Ok false)
                  = Ok false).
  { destruct (String.eqb_spec (type s) "last") as [E|_]; [|reflexivity].
    unfold get_terminated. now rewrite (proj1 (Ht E)). }
  rewrite Hterm. simpl.
  destruct (Z.eqb_spec (end_animation s) (current_animation p + 1)); [contradiction|].
  assert (Hb : (type s =? "last")%string && (end_animation s =? current_animation p)
               = false).
  { destruct (String.eqb_spec (type s) "last") as [E|_]; [|reflexivity].
    simpl. apply Z.eqb_neq. exact (proj2 (Ht E)). }
  rewrite Hb. unfold current_cap_seek0. simpl.
  rewrite (moditem_at seek0 _ _ _ _ H1 H2). simpl.
  unfold get_lastframe. simpl. rewrite Hf. simpl.
  unfold set_caps, set_current_animation. simpl. now rewrite Hf.
Qed.

Lemma X9_next_segment_witness :
  update_state PLAYING Examples.deck_two_segments
  = Ok (1%N, PLAYING,
        mkPresentation
          [mkSlide "slide" 0 2 1 None; mkSlide "last" 2 3 2 (Some false)]
          [Examples.video [1]%N 1; Examples.video [2; 3]%N 0; Examples.video [4]%N 0]
          1 0 (Some 1%N)).
Proof.
  apply (X9_next_segment Examples.deck_two_segments PLAYING
           (mkSlide "slide" 0 2 1 None) 0
           (Examples.video [1]%N 1) 1 (Examples.video [2; 3]%N 1) 1%N).
  - discriminate.
  - discriminate.
  - reflexivity.
  - discriminate.
  - split; reflexivity.
  - reflexivity.
  - simpl. lia.
  - split; reflexivity.
  - reflexivity.
Defined.

(** *** Decks ready for a whole session *)

Lemma outline_first p p' s1 :
  outline p' = outline p ->
  slides p !! 0%nat = Some s1 ->
  exists s1', slides p' !! 0%nat = Some s1' /\ start_animation s1' = start_animation s1.
Proof.
  intros Ho H1.
  assert (H : outline p' !! 0%nat = outline p !! 0%nat) by now rewrite Ho.
  unfold outline in H. rewrite !list_lookup_fmap, H1 in H. simpl in H.
  destruct (slides p' !! 0%nat) as [s1'|]; [|discriminate].
  simpl in H. injection H as _ H _ _. eauto.
Qed.

Lemma footage_fps p p' :
  footage p' = footage p ->
  Forall (fun c => rate_ok (prop_fps c)) (caps p) ->
  Forall (fun c => rate_ok (prop_fps c)) (caps p').
Proof.
  intros Hf H.
  assert (E : forall q, Forall (fun c => rate_ok (prop_fps c)) (caps q)
                        <-> Forall (fun x => rate_ok (snd x)) (footage q)).
  { intros q. unfold footage. rewrite Forall_fmap. reflexivity. }
  apply E. rewrite Hf. now apply E.
Qed.

Lemma rewind_caps_stable p p' (P : VideoCapture -> Prop) :
  rewind p = Ok p' ->
  (forall c, P c -> P (seek0 c)) ->
  Forall P (caps p) -> Forall P (caps p').
Proof.
  intros H Hseek HP. apply rewind_inv in H as (s & k0 & c0 & _ & [_ Hc0] & ->).
  simpl. apply Forall_insert; [exact HP|]. apply Hseek.
  exact (proj1 (Forall_lookup _ _) HP _ _ Hc0).
Qed.

Lemma next_inv p p' :
  next p = Ok p' ->
  (exists k s, slides p !! k = Some s
               /\ p' = set_slides (<[k := set_terminated true s]> (slides p)) p)
  \/ (exists j, rewind (set_current_slide_i j p) = Ok p').
Proof.
  unfold next. destruct (current_slide p) as [s|]; [simpl|discriminate].
  destruct (type s =? "last")%string.
  - destruct (moditem _ _ _) as [l'|] eqn:Em; [simpl|discriminate].
    intros [= <-]. apply moditem_inv in Em as (k & x & _ & Hk & ->).
    left. eauto.
  - intros H. right. eauto.
Qed.

Lemma fresh_seek0 c : fresh c -> fresh (seek0 c).
Proof. intros [_ H]. split; [reflexivity|exact H]. Qed.

(** A navigation method that behaves like [rewind], [prev], [next] does
    on decks in working order keeps a deck ready. *)
Lemma ready_step p p' :
  ready p ->
  deck_ok p' -> outline p' = outline p -> footage p' = footage p ->
  (lastframe p' <> None \/ (lastframe p = None -> Forall fresh (caps p) ->
                            Forall fresh (caps p'))) ->
  (lastframe p <> None -> lastframe p' <> None) ->
  ready p'.
Proof.
  intros (Hok & (s1 & H1 & H0) & Hfps & Hfr) Hok' Ho Hf Hl Hl'.
  split; [exact Hok'|]. split; [|split].
  - destruct (outline_first p p' s1 Ho H1) as (s1' & H1' & E).
    exists s1'. split; [exact H1'|congruence].
  - now apply (footage_fps p p').
  - destruct Hl as [Hl|Hl]; [now left|].
    destruct Hfr as [Hfr|Hfr]; [left; now apply Hl'|].
    destruct (lastframe p) eqn:E; [left; apply Hl'; discriminate|].
    right. now apply Hl.
Qed.

Lemma slides_outline p p' : slides p' = slides p -> outline p' = outline p.
Proof. unfold outline. now intros ->. Qed.

Lemma ready_rewind p : ready p -> exists p', rewind p = Ok p' /\ ready p'.
Proof.
  intros Hr. pose proof Hr as (Hok & _).
  destruct (navigation_deck_ok p Hok) as ((p' & H1 & H2 & H3 & H4 & _) & _).
  exists p'. split; [exact H1|].
  apply (ready_step p p' Hr H2 (slides_outline _ _ H4) H3).
  - right. intros _. apply (rewind_caps_stable p p' fresh H1 fresh_seek0).
  - now rewrite (rewind_lastframe p p' H1).
Qed.

Lemma ready_prev p : ready p -> exists p', prev p = Ok p' /\ ready p'.
Proof.
  intros Hr. pose proof Hr as (Hok & _).
  destruct (navigation_deck_ok p Hok) as (_ & (p' & H1 & H2 & H3 & H4 & _) & _).
  exists p'. split; [exact H1|].
  apply (ready_step p p' Hr H2 (slides_outline _ _ H4) H3).
  - right. intros _. unfold prev in H1.
    apply (rewind_caps_stable _ p' fresh H1 fresh_seek0).
  - unfold prev in H1. now rewrite (rewind_lastframe _ p' H1).
Qed.

Lemma ready_next p : ready p -> exists p', next p = Ok p' /\ ready p'.
Proof.
  intros Hr. pose proof Hr as (Hok & _).
  destruct (navigation_deck_ok p Hok) as (_ & _ & (p' & H1 & H2 & H3 & H4)).
  exists p'. split; [exact H1|].
  apply (ready_step p p' Hr H2 H4 H3).
  - right. intros _. destruct (next_inv p p' H1) as [(k & s & _ & ->)|(j & Hj)].
    + trivial.
    + apply (rewind_caps_stable _ p' fresh Hj fresh_seek0).
  - destruct (next_inv p p' H1) as [(k & s & _ & ->)|(j & Hj)].
    + trivial.
    + now rewrite (rewind_lastframe _ p' Hj).
Qed.

Lemma ready_reset p : ready p -> exists p', reset p = Ok p' /\ ready p'.
Proof.
  intros Hr. pose proof Hr as (Hok & (s1 & H1 & H0) & _).
  destruct (reset_behaviour p) as (_ & Hb & Hc).
  destruct (Hc s1 Hok H1 H0) as (p' & Hp & Hok').
  destruct (Hb p' Hp) as (_ & Hcaps & Hl & Ho & _).
  exists p'. split; [exact Hp|].
  apply (ready_step p p' Hr Hok' Ho).
  - unfold footage. now rewrite Hcaps.
  - right. now rewrite Hcaps.
  - now rewrite Hl.
Qed.

Lemma ready_update_state p st :
  ready p ->
  exists f st' p', update_state st p = Ok (f, st', p') /\ ready p'.
Proof.
  intros Hr. pose proof Hr as (Hok & _ & _ & Hfr).
  destruct (update_state_deck_ok p st Hok) as (f & st' & p' & Hu & Hok' & Hl & Hf & Hsl & _).
  { intros c Hc. destruct Hfr as [Hfr|Hfr]; [now left|]. right.
    apply getitem_inv in Hc as (k & _ & Hk).
    destruct (proj1 (Forall_lookup _ _) Hfr _ _ Hk) as [Hp Hne].
    unfold exhausted. rewrite Hp. destruct (frames c); [contradiction|discriminate]. }
  exists f, st', p'. split; [exact Hu|].
  apply (ready_step p p' Hr Hok' (slides_outline _ _ Hsl) Hf).
  - left. congruence.
  - intros _. congruence.
Qed.

End DeckInvariants.

(** ** Invariants of the session *)

Section Session.
Import Present Deck Invariant.
Implicit Types (d : Display) (p q : Presentation).

Lemma session_ok_same d d' :
  presentations d' = presentations d ->
  current_presentation_i d' = current_presentation_i d ->
  session_ok d -> session_ok d'.
Proof.
  intros Hp Hi [H1 H2]. split.
  - unfold session_index_ok. now rewrite Hp, Hi.
  - now rewrite Hp.
Qed.

Lemma session_ok_current d :
  session_ok d ->
  exists k p, current_presentation_i d = Z.of_nat k
              /\ presentations d !! k = Some p /\ ready p.
Proof.
  intros [Hi Hr]. unfold session_index_ok in Hi.
  destruct (lookup_lt_is_Some_2 (presentations d) (Z.to_nat (current_presentation_i d)))
    as [p Hp]; [lia|].
  exists (Z.to_nat (current_presentation_i d)), p.
  split; [lia|]. split; [exact Hp|].
  exact (proj1 (Forall_lookup _ _) Hr _ _ Hp).
Qed.

Lemma session_ok_insert d k p' :
  session_ok d -> ready p' ->
  session_ok (set_presentations (<[k := p']> (presentations d)) d).
Proof.
  intros [Hi Hr] Hp. split.
  - unfold session_index_ok. simpl. now rewrite length_insert.
  - simpl. now apply Forall_insert.
Qed.

(** A method that keeps decks ready, called on the current deck. *)
Lemma on_current_ready (m : Presentation -> result Presentation) d :
  session_ok d ->
  (forall p, ready p -> exists p', m p = Ok p' /\ ready p') ->
  exists k p', current_presentation_i d = Z.of_nat k
               /\ on_current_presentation m d
                  = Ok (set_presentations (<[k := p']> (presentations d)) d)
               /\ session_ok (set_presentations (<[k := p']> (presentations d)) d).
Proof.
  intros Hd Hm. destruct (session_ok_current d Hd) as (k & p & Hi & Hp & Hr).
  destruct (Hm p Hr) as (p' & Hmp & Hr').
  exists k, p'. split; [exact Hi|]. split.
  - now apply (on_current_presentation_at m d k p p').
  - now apply session_ok_insert.
Qed.

Lemma wait_budget_ready d :
  session_ok d -> exists w, wait_budget d = Ok w /\ 1 <= w.
Proof.
  intros Hd. destruct (session_ok_current d Hd) as (k & p & Hi & Hp & Hr).
  pose proof Hr as (Hok & _ & Hfps & _).
  destruct (deck_ok_cursor p Hok) as (_ & _ & c & _ & _ & _ & _ & Hc).
  unfold wait_budget. rewrite (current_presentation_at d k p Hi Hp). simpl.
  unfold fps. rewrite (current_cap_at p _ c Hc). simpl.
  destruct (proj1 (Forall_lookup _ _) Hfps _ _ (proj2 Hc)) as [t Ht].
  rewrite Ht. simpl. eexists. split; [reflexivity|]. rewrite fix_time_max. lia.
Qed.

Lemma show_info_ready d : session_ok d -> show_info d = Ok tt.
Proof.
  intros Hd. destruct (session_ok_current d Hd) as (k & p & Hi & Hp & Hr).
  destruct Hr as ((_ & _ & s & Hs & _) & _).
  unfold show_info. rewrite (current_presentation_at d k p Hi Hp). simpl.
  now rewrite Hs.
Qed.

Lemma handled_refl d st :
  st = state d \/ st = PLAYING \/ st = PAUSED -> handled d (set_state st d).
Proof. intros H. repeat split; try reflexivity. exact H. Qed.

Lemma handled_insert d i k p' st :
  i = Z.of_nat k ->
  handled d (set_state st
               (set_presentations (<[k := p']> (presentations d))
                  (set_current_presentation_i i d))) <->
  (st = state d \/ st = PLAYING \/ st = PAUSED).
Proof.
  intros ->. split; [intros (H & _); exact H|]. intros H.
  repeat split; try reflexivity; simpl.
  - exact H.
  - apply length_insert.
  - intros j Hj. apply list_lookup_insert_ne. lia.
Qed.

Lemma on_current_handled (m : Presentation -> result Presentation) d st :
  session_ok d ->
  (forall p, ready p -> exists p', m p = Ok p' /\ ready p') ->
  st = state d \/ st = PLAYING \/ st = PAUSED ->
  exists d', on_current_presentation m d = Ok d'
             /\ session_ok (set_state st d') /\ handled d (set_state st d').
Proof.
  intros Hd Hm Hst. destruct (on_current_ready m d Hd Hm) as (k & p' & Hi & Ho & Hs).
  eexists. split; [exact Ho|]. split.
  - eapply session_ok_same; [| |exact Hs]; reflexivity.
  - repeat split; try reflexivity; simpl.
    + exact Hst.
    + apply length_insert.
    + intros j Hj. apply list_lookup_insert_ne. lia.
Qed.

(** The key handler on a session in working order. *)
Lemma dispatch_key_session key d :
  session_ok d ->
  match dispatch_key key d with
  | Ok d' => key <> QUIT_KEY /\ session_ok d' /\ handled d d'
  | Raise e => e = SystemExit /\ key = QUIT_KEY
  end.
Proof.
  intros Hd. unfold dispatch_key.
  destruct (Z.eqb_spec key QUIT_KEY) as [Hq|Hq]; [now split|].
  assert (Hself : forall st, st = state d \/ st = PLAYING \/ st = PAUSED ->
            key <> QUIT_KEY /\ session_ok (set_state st d) /\ handled d (set_state st d)).
  { intros st Hst. split; [exact Hq|]. split; [|now apply handled_refl].
    eapply session_ok_same; [| |exact Hd]; reflexivity. }
  destruct (State_eqb (state d) PLAYING && (key =? PLAYPAUSE_KEY)).
  { apply Hself. auto. }
  destruct (State_eqb (state d) PAUSED && (key =? PLAYPAUSE_KEY)).
  { apply Hself. auto. }
  destruct (State_eqb (state d) WAIT && ((key =? CONTINUE_KEY) || (key =? PLAYPAUSE_KEY))).
  { destruct (on_current_handled next d PLAYING Hd ready_next) as (d' & -> & H1 & H2);
      [auto|]. simpl. now split. }
  destruct (State_eqb (state d) PLAYING && (key =? CONTINUE_KEY)).
  { destruct (on_current_ready next d Hd ready_next) as (k & p' & Hi & -> & Hs).
    split; [exact Hq|]. split; [exact Hs|].
    repeat split; try reflexivity; simpl.
    - now left.
    - apply length_insert.
    - intros j Hj. apply list_lookup_insert_ne. lia. }
  destruct (key =? BACK_KEY).
  { destruct (session_ok_current d Hd) as (k & p & Hi & Hp & Hr).
    rewrite (current_presentation_at d k p Hi Hp). simpl.
    destruct (current_slide_i p =? 0).
    - set (d1 := set_current_presentation_i (Z.max 0 (current_presentation_i d - 1)) d).
      assert (Hd1 : session_ok d1).
      { destruct Hd as [Hidx Hall]. split; [|exact Hall].
        unfold session_index_ok in *. simpl. lia. }
      destruct (on_current_ready reset d1 Hd1 ready_reset) as (k1 & p' & Hi1 & Ho & Hs).
      rewrite Ho. simpl. split; [exact Hq|]. split.
      + eapply session_ok_same; [| |exact Hs]; reflexivity.
      + apply (handled_insert d _ k1 p' PLAYING Hi1). auto.
    - destruct (on_current_handled prev d PLAYING Hd ready_prev) as (d' & -> & H1 & H2);
        [auto|]. simpl. now split. }
  destruct (key =? REWIND_KEY).
  { destruct (on_current_handled rewind d PLAYING Hd ready_rewind) as (d' & -> & H1 & H2);
      [auto|]. simpl. now split. }
  split; [exact Hq|]. split; [exact Hd|].
  repeat split; auto.
Qed.

Lemma State_eqb_eq a b : State_eqb a b = true <-> a = b.
Proof. destruct a, b; simpl; split; congruence. Qed.

(** One tick on a session in working order. *)
Lemma tick_session key t1 t2 d :
  session_ok d ->
  match tick key t1 t2 d with
  | Ok d' =>
      session_ok d' /\ state d' <> END
      /\ lag d' = t1 - last_time d /\ last_time d' = t2
      /\ length (presentations d') = length (presentations d)
      /\ shown_frame d' <> None
  | Raise e => e = SystemExit
  end.
Proof.
  intros Hd. destruct (session_ok_current d Hd) as (k & p & Hi & Hp & Hr).
  destruct (ready_update_state p (state d) Hr) as (f & st' & p' & Hu & Hr').
  unfold tick. rewrite (current_presentation_at d k p Hi Hp). simpl.
  rewrite Hu. simpl. rewrite Hi, (moditem_nat _ _ _ _ Hp). simpl.
  set (d1 := set_state st' (set_shown_frame (Some f)
               (set_presentations (<[k := p']> (presentations d)) d))).
  assert (Hd1 : session_ok d1).
  { eapply session_ok_same; [| |exact (session_ok_insert d k p' Hd Hr')]; reflexivity. }
  set (d2 := if State_eqb st' PLAYING || State_eqb st' PAUSED
             then if start_paused d
                  then set_start_paused false (set_state PAUSED d1) else d1
             else d1).
  assert (Hd2 : session_ok d2 /\ shown_frame d2 = Some f
                /\ last_time d2 = last_time d
                /\ length (presentations d2) = length (presentations d)).
  { assert (H1 : session_ok d1 /\ shown_frame d1 = Some f
                 /\ last_time d1 = last_time d
                 /\ length (presentations d1) = length (presentations d)).
    { repeat split; try apply Hd1. simpl. apply length_insert. }
    unfold d2. destruct (State_eqb st' PLAYING || State_eqb st' PAUSED);
      [|exact H1].
    destruct (start_paused d); [|exact H1].
    destruct H1 as (_ & H2 & H3 & H4). split; [|now repeat split].
    eapply session_ok_same; [| |exact Hd1]; reflexivity. }
  clearbody d2. clear d1 Hd1. destruct Hd2 as (Hd2 & Hf2 & Ht2 & Hl2).
  assert (Hend : match (if State_eqb (state d2) END
                        then if current_presentation_i d2
                                =? Z.of_nat (length (presentations d2)) - 1
                             then quit d2
                             else Ok (set_state PLAYING
                                        (set_current_presentation_i
                                           (current_presentation_i d2 + 1) d2))
                        else Ok d2) with
                 | Ok d3 => session_ok d3 /\ state d3 <> END
                            /\ shown_frame d3 = Some f /\ last_time d3 = last_time d
                            /\ length (presentations d3) = length (presentations d)
                 | Raise e => e = SystemExit
                 end).
  { destruct (State_eqb (state d2) END) eqn:E.
    - destruct (Z.eqb_spec (current_presentation_i d2)
                           (Z.of_nat (length (presentations d2)) - 1)) as [El|El].
      + reflexivity.
      + split; [|repeat split; try assumption; discriminate].
        destruct Hd2 as [Hidx Hall]. split; [|exact Hall].
        unfold session_index_ok in *. simpl. lia.
    - split; [exact Hd2|]. split; [|now repeat split].
      intros H. apply State_eqb_eq in H. congruence. }
  destruct (if State_eqb (state d2) END then _ else _) as [d3|e]; [|exact Hend].
  destruct Hend as (Hd3 & Hs3 & Hf3 & Ht3 & Hl3). simpl.
  unfold handle_key. destruct (wait_budget_ready d3 Hd3) as (w & -> & _). simpl.
  pose proof (dispatch_key_session key d3 Hd3) as Hk.
  destruct (dispatch_key key d3) as [d4|e]; [|exact (proj1 Hk)].
  destruct Hk as (_ & Hd4 & Hst & _ & Hf4 & _ & Ht4 & Hl4 & _). simpl.
  assert (Hd5 : session_ok (show_video t1 t2 d4)).
  { eapply session_ok_same; [| |exact Hd4]; reflexivity. }
  rewrite (show_info_ready _ Hd5). simpl.
  split; [exact Hd5|]. split.
  { destruct Hst as [H|[H|H]]; rewrite H; [exact Hs3|discriminate|discriminate]. }
  split; [congruence|]. split; [reflexivity|]. split; [congruence|].
  rewrite Hf4, Hf3. discriminate.
Qed.

(** X10. A session in working order (active index in range, every deck
    in working order with its first slide starting at segment 0, every
    frame rate one for which [math.ceil(1000 / fps)] is defined, a frame
    cached or every capture unread and not empty) stays so for as long
    as it runs: whatever the keys and clock readings, the loop of [run]
    raises nothing but the [SystemExit] of [quit] (no index, key,
    attribute, division, value or overflow error), and while it has not
    exited the session is in working order again and its state is not
    [END]. *)
Theorem X10_session_runs_safely (inputs : list (Z * Z * Z)) d :
  session_ok d -> state d <> END ->
  match run_for inputs d with
  | Ok d' => session_ok d' /\ state d' <> END
             /\ length (presentations d') = length (presentations d)
  | Raise e => e = SystemExit
  end.
Proof.
  revert d. induction inputs as [|[[key t1] t2] rest IH]; intros d Hd Hs; simpl.
  - split; [exact Hd|]. split; [exact Hs|reflexivity].
  - pose proof (tick_session key t1 t2 d Hd) as Ht.
    destruct (tick key t1 t2 d) as [d'|e]; [|exact Ht]. simpl.
    destruct Ht as (Hd' & Hs' & _ & _ & Hl & _).
    specialize (IH d' Hd' Hs').
    destruct (run_for rest d') as [d''|e]; [|exact IH].
    destruct IH as (H1 & H2 & H3).
    split; [exact H1|]. split; [exact H2|congruence].
Qed.

(** Readiness of a deck given in full. *)
Ltac rates_ok :=
  repeat (apply List.Forall_cons; [eexists; vm_compute; reflexivity|]);
  apply List.Forall_nil.

Ltac ready_deck :=
  split;
  [ split; [unfold slide_index_ok; simpl; lia|];
    split; [repeat constructor; simpl; try lia; discriminate|];
    eexists; split; [reflexivity|simpl; lia]
  | split; [eexists; split; reflexivity|];
    split; [rates_ok|];
    first [left; discriminate | right; repeat constructor; discriminate] ].

Ltac ready_session :=
  split; [unfold session_index_ok; simpl; lia|];
  repeat (apply List.Forall_cons; [ready_deck|]); apply List.Forall_nil.

Lemma X10_session_runs_safely_witness :
  match run_for Examples.demo_inputs Examples.session_start with
  | Ok d' => session_ok d' /\ state d' <> END
             /\ length (presentations d') = 2%nat
  | Raise e => e = SystemExit
  end.
Proof.
  apply (X10_session_runs_safely Examples.demo_inputs Examples.session_start).
  - ready_session.
  - discriminate.
Defined.

(** The session of the example runs six ticks and is quit on the
    seventh. *)
Lemma demo_session_quits :
  run_for (take 6 Examples.demo_inputs) Examples.session_start
  = Ok (mkDisplay [Examples.deck_playing; Examples.deck_second]
          false PAUSED (Some 1%N) 0 39 211)
  /\ run_for Examples.demo_inputs Examples.session_start = Raise SystemExit.
Proof. split; vm_compute; reflexivity. Qed.

(** X11. On a session in working order the key handler raises only for
    the Quit key, and then [SystemExit]; for every other key it returns
    a session in working order in which the state has stayed or become
    [PLAYING] or [PAUSED], the clock, the shown frame and the
    start-paused flag are as before, and no deck other than the one
    active afterwards has changed. *)
Theorem X11_key_handling key d :
  session_ok d ->
  match dispatch_key key d with
  | Ok d' => key <> QUIT_KEY /\ session_ok d' /\ handled d d'
  | Raise e => e = SystemExit /\ key = QUIT_KEY
  end.
Proof. exact (dispatch_key_session key d). Qed.

Lemma X11_key_handling_witness :
  match dispatch_key BACK_KEY Examples.session_second with
  | Ok d' => BACK_KEY <> QUIT_KEY /\ session_ok d'
             /\ handled Examples.session_second d'
  | Raise e => e = SystemExit /\ BACK_KEY = QUIT_KEY
  end.
Proof.
  apply (X11_key_handling BACK_KEY Examples.session_second).
  ready_session.
Defined.

Lemma unbound_key_ignored key d :
  bound_key key = false -> dispatch_key key d = Ok d.
Proof.
  intros H. unfold bound_key in H.
  repeat (apply orb_false_iff in H; destruct H as [H ?]).
  unfold dispatch_key.
  repeat match goal with E : (_ =? _) = false |- _ => rewrite E; clear E end.
  rewrite !andb_false_r. reflexivity.
Qed.

(** X12. A key that is none of the five key codes is ignored in every
    state, and so is the Continue key while the state is [PAUSED]: the
    session is returned exactly as it was. *)
Theorem X12_ignored_keys key d :
  bound_key key = false \/ (key = CONTINUE_KEY /\ state d = PAUSED) ->
  dispatch_key key d = Ok d.
Proof.
  intros [H|[-> Hs]].
  - now apply unbound_key_ignored.
  - unfold dispatch_key. rewrite Hs. reflexivity.
Qed.

Lemma X12_ignored_keys_witness :
  dispatch_key 255 Examples.session_single = Ok Examples.session_single
  /\ dispatch_key CONTINUE_KEY (set_state PAUSED Examples.session_single)
     = Ok (set_state PAUSED Examples.session_single).
Proof.
  split.
  - apply (X12_ignored_keys 255 Examples.session_single). left. reflexivity.
  - apply (X12_ignored_keys CONTINUE_KEY (set_state PAUSED Examples.session_single)).
    right. split; reflexivity.
Defined.

(** X13. The PlayPause key toggles between [PLAYING] and [PAUSED] and
    touches nothing else: pressed twice it gives the session back. *)
Theorem X13_play_pause_twice d :
  state d = PLAYING \/ state d = PAUSED ->
  exists d1,
    dispatch_key PLAYPAUSE_KEY d = Ok d1
    /\ state d1 = (if State_eqb (state d) PLAYING then PAUSED else PLAYING)
    /\ presentations d1 = presentations d
    /\ dispatch_key PLAYPAUSE_KEY d1 = Ok d.
Proof.
  intros [H|H]; destruct d as [ps sp st sf i l t]; simpl in H; subst st.
  - exists (mkDisplay ps sp PAUSED sf i l t). repeat split.
  - exists (mkDisplay ps sp PLAYING sf i l t). repeat split.
Qed.

Lemma X13_play_pause_twice_witness :
  exists d1,
    dispatch_key PLAYPAUSE_KEY Examples.session_single = Ok d1
    /\ state d1 = PAUSED
    /\ presentations d1 = [Examples.deck_playing]
    /\ dispatch_key PLAYPAUSE_KEY d1 = Ok Examples.session_single.
Proof.
  apply (X13_play_pause_twice Examples.session_single). left. reflexivity.
Defined.

(** X14. A capture that reports a frame rate of zero, of either sign
    (as an unreadable file does), makes [handle_key] raise
    [ZeroDivisionError] before any key is looked at, the Quit key
    included. *)
Theorem X14_zero_frame_rate key d p c s :
  current_presentation d = Ok p ->
  current_cap p = Ok c ->
  prop_fps c = S754_zero s ->
  handle_key key d = Raise ZeroDivisionError.
Proof.
  intros Hp Hc H0. unfold handle_key, wait_budget, fps.
  rewrite Hp. simpl. rewrite Hc. simpl. now rewrite H0.
Qed.

Lemma X14_zero_frame_rate_witness :
  handle_key QUIT_KEY
    (mkDisplay [Examples.deck_unreadable] false PLAYING None 0 0 0)
  = Raise ZeroDivisionError.
Proof.
  apply (X14_zero_frame_rate QUIT_KEY
           (mkDisplay [Examples.deck_unreadable] false PLAYING None 0 0 0)
           Examples.deck_unreadable Examples.no_video false); reflexivity.
Defined.

(** X15. When [update_state] returns [END] for the active deck of a
    session in working order: on the last deck the tick raises the
    [SystemExit] of [quit], whatever key was pressed; on any other deck
    the session moves to the next deck in state [PLAYING] (here with no
    bound key pressed), the deck it leaves kept as [update_state] left
    it, the frame shown and the clock updated. *)
Theorem X15_deck_end key t1 t2 d k p f p' :
  session_ok d ->
  current_presentation_i d = Z.of_nat k ->
  presentations d !! k = Some p ->
  update_state (state d) p = Ok (f, END, p') ->
  (S k = length (presentations d) -> tick key t1 t2 d = Raise SystemExit)
  /\ ((S k < length (presentations d))%nat -> bound_key key = false ->
      tick key t1 t2 d
      = Ok (mkDisplay (<[k := p']> (presentations d)) (start_paused d) PLAYING
                      (Some f) (Z.of_nat (S k)) (t1 - last_time d) t2)).
Proof.
  intros Hd Hi Hp Hu.
  assert (Hr' : ready p').
  { destruct (ready_update_state p (state d)) as (f0 & st0 & p0 & Hu0 & Hr0).
    - destruct Hd as [_ Hall]. exact (proj1 (Forall_lookup _ _) Hall _ _ Hp).
    - rewrite Hu in Hu0. now injection Hu0 as <- <- <-. }
  assert (Ht : forall A (K : Display -> result A),
    (d0 <- tick key t1 t2 d ;; K d0)
    = (d3 <- (if current_presentation_i d =? Z.of_nat (length (presentations d)) - 1
              then quit d
              else Ok (mkDisplay (<[k := p']> (presentations d)) (start_paused d)
                         PLAYING (Some f) (current_presentation_i d + 1)
                         (lag d) (last_time d))) ;;
       wd <- handle_key key d3 ;;
       _ <- show_info (show_video t1 t2 (snd wd)) ;;
       K (show_video t1 t2 (snd wd)))).
  { intros A K. unfold tick. rewrite (current_presentation_at d k p Hi Hp). simpl.
    rewrite Hu. simpl. rewrite Hi at 1. rewrite (moditem_nat _ _ _ _ Hp). simpl.
    rewrite length_insert.
    destruct (current_presentation_i d =? Z.of_nat (length (presentations d)) - 1);
      [reflexivity|]. simpl.
    destruct (handle_key key _) as [wd|]; [simpl|reflexivity].
    destruct (show_info _) as [[]|]; reflexivity. }
  split.
  - intros Hlast. specialize (Ht _ Ok).
    assert (E : forall r : result Display, (x <- r ;; Ok x) = r) by (now intros []).
    rewrite E in Ht. rewrite Ht.
    replace (current_presentation_i d =? Z.of_nat (length (presentations d)) - 1)
      with true by (symmetry; apply Z.eqb_eq; lia).
    reflexivity.
  - intros Hlt Hkey. specialize (Ht _ Ok).
    assert (E : forall r : result Display, (x <- r ;; Ok x) = r) by (now intros []).
    rewrite E in Ht. rewrite Ht.
    replace (current_presentation_i d =? Z.of_nat (length (presentations d)) - 1)
      with false by (symmetry; apply Z.eqb_neq; lia).
    simpl.
    set (d3 := mkDisplay _ _ PLAYING _ _ _ _).
    assert (Hd3 : session_ok d3).
    { split.
      - unfold session_index_ok. simpl. rewrite length_insert. lia.
      - simpl. apply Forall_insert; [apply Hd|exact Hr']. }
    unfold handle_key. destruct (wait_budget_ready d3 Hd3) as (w & -> & _). simpl.
    rewrite (unbound_key_ignored key d3 Hkey). simpl.
    rewrite show_info_ready.
    + simpl. unfold show_video, set_clock, d3. simpl. do 2 f_equal. lia.
    + eapply session_ok_same; [| |exact Hd3]; reflexivity.
Qed.

Lemma X15_deck_end_witness :
  tick QUIT_KEY 1003 1004 Examples.session_last_done = Raise SystemExit
  /\ tick 255 1003 1004 Examples.session_deck_done
     = Ok (mkDisplay
             [mkPresentation (Examples.loaded_slides true)
                [Examples.video [1; 2]%N 2; Examples.video [3]%N 1;
                 Examples.video [4; 5]%N 2] 2 2 (Some 5%N);
              Examples.deck_second]
             true PLAYING (Some 5%N) 1 3 1004).
Proof.
  split.
  - apply (proj1 (X15_deck_end QUIT_KEY 1003 1004 Examples.session_last_done 0
                    Examples.deck_ended 5%N
                    (mkPresentation (Examples.loaded_slides true)
                       [Examples.video [1; 2]%N 2; Examples.video [3]%N 1;
                        Examples.video [4; 5]%N 2] 2 2 (Some 5%N))
                    ltac:(ready_session)
                    eq_refl eq_refl eq_refl)).
    reflexivity.
  - apply (proj2 (X15_deck_end 255 1003 1004 Examples.session_deck_done 0
                    Examples.deck_ended 5%N
                    (mkPresentation (Examples.loaded_slides true)
                       [Examples.video [1; 2]%N 2; Examples.video [3]%N 1;
                        Examples.video [4; 5]%N 2] 2 2 (Some 5%N))
                    ltac:(ready_session)
                    eq_refl eq_refl eq_refl)).
    + simpl. lia.
    + reflexivity.
Defined.

End Session.

(** ** The validators and keys of config.py *)

Section ConfigProperties.
Import Config.
#[local] Set Warnings "-clear-no-such-hyp".

Lemma validate_unfold (v : SlideConfig) :
  start_animation v < end_animation v ->
  validate v
  = match type_errors (type v)
          ++ field_errors (index_is_posint (start_animation v))
          ++ field_errors (index_is_posint (end_animation v))
          ++ field_errors (number_is_strictly_posint (number v)) with
    | [] => Ok (slide_config (type v) (start_animation v) (end_animation v)
                  (number v) (Some (default false (terminated v))))
    | errors => Raise (ValidationError errors)
    end.
Proof.
  intros Hlt. unfold validate, start_animation_is_before_end.
  destruct (Z.geb_spec (start_animation v) (end_animation v)); [lia|].
  simpl. destruct (_ ++ _); reflexivity.
Qed.

Lemma validate_before (v : SlideConfig) :
  start_animation v >= end_animation v -> forall v', validate v <> Ok v'.
Proof.
  intros Hge v'. unfold validate, start_animation_is_before_end.
  destruct (Z.geb_spec (start_animation v) (end_animation v)); [|lia].
  destruct ((start_animation v =? end_animation v) && (end_animation v =? 0));
    discriminate.
Qed.

Lemma type_errors_nil (t : option string) :
  type_errors t = []
  <-> exists s, t = Some s
                /\ (s = "slide" \/ s = "loop" \/ s = "last")%string.
Proof.
  unfold type_errors, SlideType.of_string. destruct t as [s|].
  - destruct (String.eqb_spec s "slide") as [->|H1].
    { split; [eauto|reflexivity]. }
    destruct (String.eqb_spec s "loop") as [->|H2].
    { split; [eauto 6|reflexivity]. }
    destruct (String.eqb_spec s "last") as [->|H3].
    { split; [eauto 6|reflexivity]. }
    split; [discriminate|]. intros (s' & [= <-] & [?|[?|?]]); contradiction.
  - split; [discriminate|]. intros (s' & H & _). discriminate.
Qed.

Lemma validate_ok_iff (v v' : SlideConfig) :
  validate v = Ok v'
  <-> (exists s, type v = Some s
                 /\ (s = "slide" \/ s = "loop" \/ s = "last")%string)
      /\ 0 <= start_animation v < end_animation v
      /\ 0 < number v
      /\ v' = slide_config (type v) (start_animation v) (end_animation v)
                 (number v) (Some (default false (terminated v))).
Proof.
  destruct (Z.lt_ge_cases (start_animation v) (end_animation v)) as [Hlt|Hge].
  2:{ split; [intros H; now apply validate_before in H; [|lia]|].
      intros (_ & H & _). lia. }
  rewrite (validate_unfold v Hlt). rewrite <- type_errors_nil.
  unfold index_is_posint, number_is_strictly_posint.
  destruct (type_errors (type v)) as [|m ms]; simpl.
  - destruct (Z.ltb_spec (start_animation v) 0) as [Hs|Hs]; simpl.
    { split; [discriminate|]. intros (_ & H & _). lia. }
    destruct (Z.ltb_spec (end_animation v) 0) as [He|He]; [lia|]. simpl.
    destruct (Z.leb_spec (number v) 0) as [Hn|Hn]; simpl.
    + split; [discriminate|]. intros (_ & _ & H & _). lia.
    + split.
      * intros [= <-]. repeat split; lia.
      * intros (_ & _ & _ & ->). reflexivity.
  - split; [discriminate|]. intros (H & _). discriminate.
Qed.

Lemma validate_range (v : SlideConfig) :
  validate v = Ok v -> 0 <= start_animation v < end_animation v.
Proof. intros H. apply validate_ok_iff in H. tauto. Qed.

(** X16. A slide passes [validate] (the range check, then the check of
    every field) exactly when its [type] is present and one of
    ["slide"], ["loop"], ["last"], [0 <= start_animation <
    end_animation] and [number > 0]; it comes back with the same values,
    [terminated] being [False] where it was missing.  When the range
    check passes and fields fail, the failures of all of them are
    reported together, in the order of the fields. *)
Theorem X16_validate_iff (v v' : SlideConfig) :
  (validate v = Ok v'
   <-> (exists s, type v = Some s
                  /\ (s = "slide" \/ s = "loop" \/ s = "last")%string)
       /\ 0 <= start_animation v < end_animation v
       /\ 0 < number v
       /\ v' = slide_config (type v) (start_animation v) (end_animation v)
                  (number v) (Some (default false (terminated v))))
  /\ (start_animation v < end_animation v ->
      forall errors,
        validate v = Raise (ValidationError errors)
        <-> errors <> []
            /\ errors
               = type_errors (type v)
                 ++ (if start_animation v <? 0
                     then ["Animation index (start or end) cannot be negative"%string]
                     else [])
                 ++ (if end_animation v <? 0
                     then ["Animation index (start or end) cannot be negative"%string]
                     else [])
                 ++ (if number v <=? 0
                     then ["Slide number cannot be negative or zero"%string]
                     else [])).
Proof.
  split; [exact (validate_ok_iff v v')|].
  intros Hlt errors. rewrite (validate_unfold v Hlt).
  unfold index_is_posint, number_is_strictly_posint.
  assert (Hlist :
    type_errors (type v)
    ++ field_errors (if start_animation v <? 0
                     then Raise (ValueError "Animation index (start or end) cannot be negative")
                     else Ok (start_animation v))
    ++ field_errors (if end_animation v <? 0
                     then Raise (ValueError "Animation index (start or end) cannot be negative")
                     else Ok (end_animation v))
    ++ field_errors (if number v <=? 0
                     then Raise (ValueError "Slide number cannot be negative or zero")
                     else Ok (number v))
    = type_errors (type v)
      ++ (if start_animation v <? 0
          then ["Animation index (start or end) cannot be negative"%string] else [])
      ++ (if end_animation v <? 0
          then ["Animation index (start or end) cannot be negative"%string] else [])
      ++ (if number v <=? 0
          then ["Slide number cannot be negative or zero"%string] else [])).
  { destruct (start_animation v <? 0), (end_animation v <? 0), (number v <=? 0);
      reflexivity. }
  rewrite Hlist. clear Hlist.
  set (l := type_errors (type v) ++ _).
  destruct l as [|m ms] eqn:El.
  - split; [discriminate|]. intros [H ->]. now destruct H.
  - split.
    + intros [= <-]. split; [discriminate|reflexivity].
    + intros [_ ->]. reflexivity.
Qed.

Lemma X16_validate_iff_witness :
  validate (slide_config (Some "loop"%string) 0 2 1 None)
  = Ok (slide_config (Some "loop"%string) 0 2 1 (Some false))
  /\ (validate (mkSlideConfig (-1) 2 1) = Ok (mkSlideConfig (-1) 2 1) -> False)
  /\ (validate (slide_config (Some "video"%string) 0 2 1 None)
      = Ok (slide_config (Some "video"%string) 0 2 1 (Some false)) -> False)
  /\ validate (slide_config None (-2) (-1) 0 None)
     = Raise (ValidationError
                ["Field required";
                 "Animation index (start or end) cannot be negative";
                 "Animation index (start or end) cannot be negative";
                 "Slide number cannot be negative or zero"]%string).
Proof.
  split; [|split; [|split]].
  - apply (proj2 (proj1 (X16_validate_iff
                           (slide_config (Some "loop"%string) 0 2 1 None)
                           (slide_config (Some "loop"%string) 0 2 1 (Some false))))).
    simpl. split; [eexists; split; [reflexivity|tauto]|]. repeat split; lia.
  - intros H.
    apply (proj1 (proj1 (X16_validate_iff (mkSlideConfig (-1) 2 1)
                                          (mkSlideConfig (-1) 2 1)))) in H.
    simpl in H. lia.
  - intros H.
    apply (proj1 (proj1 (X16_validate_iff
                           (slide_config (Some "video"%string) 0 2 1 None)
                           (slide_config (Some "video"%string) 0 2 1 (Some false)))))
      in H.
    destruct H as ((s & [= <-] & [H|[H|H]]) & _); discriminate.
  - apply (proj2 (X16_validate_iff (slide_config None (-2) (-1) 0 None)
                                   (mkSlideConfig 0 0 0))).
    + simpl. lia.
    + split; [discriminate|reflexivity].
Defined.

Lemma check_slides_iff describe fs ss :
  check_slides describe fs ss = Ok tt
  <-> Forall (fun s => end_animation s <= Z.of_nat (length fs)) ss.
Proof.
  induction ss as [|s ss IH]; simpl.
  - split; [constructor|reflexivity].
  - destruct (Z.gtb_spec (end_animation s) (Z.of_nat (length fs))) as [Hgt|Hle].
    + split; [discriminate|]. intros H. inversion H; subst. lia.
    + rewrite IH. split.
      * intros H. now constructor.
      * intros H. now inversion H.
Qed.

(** X17. [animation_indices_match_files] accepts a deck exactly when no
    slide ends beyond the number of files, and returns it unchanged; the
    slide it complains about otherwise is the first offending one. *)
Theorem X17_indices_match_files describe (config config' : PresentationConfig) :
  (animation_indices_match_files describe config = Ok config'
   <-> config' = config
       /\ Forall (fun s => end_animation s <= Z.of_nat (length (files config)))
                 (slides config))
  /\ (forall ok s rest,
        slides config = ok ++ s :: rest ->
        Forall (fun x => end_animation x <= Z.of_nat (length (files config))) ok ->
        end_animation s > Z.of_nat (length (files config)) ->
        animation_indices_match_files describe config
        = Raise (ValueError (describe (files config) s))).
Proof.
  unfold animation_indices_match_files. split.
  - destruct (check_slides describe (files config) (slides config)) as [[]|e] eqn:E;
      simpl.
    + apply check_slides_iff in E. split.
      * intros [= <-]. now split.
      * now intros [-> _].
    + split; [discriminate|]. intros [_ H].
      apply (check_slides_iff describe) in H. congruence.
  - intros ok s rest -> Hok Hs.
    induction Hok as [|x ok Hx Hok IH]; simpl.
    + destruct (Z.gtb_spec (end_animation s) (Z.of_nat (length (files config))));
        [reflexivity|lia].
    + destruct (Z.gtb_spec (end_animation x) (Z.of_nat (length (files config))));
        [lia|exact IH].
Qed.

Lemma X17_indices_match_files_witness :
  animation_indices_match_files (fun _ _ => "slide out of range"%string)
    (mkPresentationConfig [mkSlideConfig 0 1 1; mkSlideConfig 1 3 2]
                          ["a.mp4"; "b.mp4"]%string)
  = Raise (ValueError "slide out of range").
Proof.
  apply (proj2 (X17_indices_match_files (fun _ _ => "slide out of range"%string)
                  (mkPresentationConfig [mkSlideConfig 0 1 1; mkSlideConfig 1 3 2]
                                        ["a.mp4"; "b.mp4"]%string)
                  (mkPresentationConfig [] []))
           [mkSlideConfig 0 1 1] (mkSlideConfig 1 3 2) []).
  - reflexivity.
  - repeat constructor. simpl. lia.
  - simpl. lia.
Defined.

Lemma slice_bound_nonneg n i :
  0 <= i <= Z.of_nat n -> slice_bound n i = Z.to_nat i.
Proof.
  intros H. unfold slice_bound. destruct (Z.ltb_spec i 0); [lia|]. f_equal. lia.
Qed.

(** X18. In a deck whose slides pass [validate] and which passes
    [animation_indices_match_files], the files of every slide
    ([slides_slice]) are exactly the [end_animation - start_animation]
    files from position [start_animation] on: never an empty list. *)
Theorem X18_slide_files describe (config : PresentationConfig) s :
  Forall (fun x => validate x = Ok x) (slides config) ->
  animation_indices_match_files describe config = Ok config ->
  s ∈ slides config ->
  slides_slice s (files config)
  = take (Z.to_nat (end_animation s - start_animation s))
         (drop (Z.to_nat (start_animation s)) (files config))
  /\ length (slides_slice s (files config))
     = Z.to_nat (end_animation s - start_animation s)
  /\ slides_slice s (files config) <> [].
Proof.
  intros Hv Hm Hs.
  assert (Hval : 0 <= start_animation s < end_animation s).
  { rewrite Forall_forall in Hv. specialize (Hv s Hs).
    exact (validate_range s Hv). }
  assert (Hend : end_animation s <= Z.of_nat (length (files config))).
  { unfold animation_indices_match_files in Hm.
    destruct (check_slides describe (files config) (slides config)) as [[]|] eqn:E;
      [|discriminate].
    apply check_slides_iff in E. rewrite Forall_forall in E. exact (E s Hs). }
  assert (Heq : slides_slice s (files config)
                = take (Z.to_nat (end_animation s - start_animation s))
                       (drop (Z.to_nat (start_animation s)) (files config))).
  { unfold slides_slice, py_slice.
    rewrite !slice_bound_nonneg by lia. f_equal. lia. }
  assert (Hlen : length (slides_slice s (files config))
                 = Z.to_nat (end_animation s - start_animation s)).
  { rewrite Heq, length_take, length_drop. lia. }
  split; [exact Heq|]. split; [exact Hlen|].
  intros H. rewrite H in Hlen. simpl in Hlen. lia.
Qed.

Lemma X18_slide_files_witness :
  slides_slice (mkSlideConfig 1 3 2) ["a.mp4"; "b.mp4"; "c.mp4"]%string
  = ["b.mp4"; "c.mp4"]%string
  /\ length (slides_slice (mkSlideConfig 1 3 2) ["a.mp4"; "b.mp4"; "c.mp4"]%string)
     = 2%nat
  /\ slides_slice (mkSlideConfig 1 3 2) ["a.mp4"; "b.mp4"; "c.mp4"]%string <> [].
Proof.
  apply (X18_slide_files (fun _ _ => EmptyString)
           (mkPresentationConfig [mkSlideConfig 0 1 1; mkSlideConfig 1 3 2]
                                 ["a.mp4"; "b.mp4"; "c.mp4"]%string)
           (mkSlideConfig 1 3 2)).
  - repeat constructor.
  - reflexivity.
  - simpl. apply list_elem_of_In. simpl. right. left. reflexivity.
Defined.

Lemma unique_from_iff (seen : gset Z) (keys : list Key) :
  unique_from seen keys = Ok tt
  <-> Forall (fun k => seen ## ids k) keys
      /\ List.ForallOrdPairs (fun a b => ids a ## ids b) keys.
Proof.
  revert seen. induction keys as [|k keys IH]; intros seen; simpl.
  - split; [intros _; split; constructor|reflexivity].
  - destruct (Nat.eqb_spec (size (seen ∩ ids k)) 0) as [Hz|Hnz]; simpl.
    + apply size_empty_iff in Hz. apply leibniz_equiv in Hz.
      apply disjoint_intersection_L in Hz.
      rewrite IH. split.
      * intros [Hall Hpairs]. split.
        -- constructor; [exact Hz|].
           eapply Forall_impl; [exact Hall|]. intros x Hx. simpl in Hx.
           apply disjoint_union_l in Hx. apply Hx.
        -- constructor; [|exact Hpairs].
           eapply Forall_impl; [exact Hall|]. intros x Hx. simpl in Hx.
           apply disjoint_union_l in Hx. apply Hx.
      * intros [Hall Hpairs]. inversion Hall as [|? ? _ Hall']; subst.
        inversion Hpairs as [|? ? Hk Hpairs']; subst. split; [|exact Hpairs'].
        apply Forall_forall. intros x Hx. apply disjoint_union_l. split.
        -- rewrite Forall_forall in Hall'. now apply Hall'.
        -- rewrite Forall_forall in Hk. now apply Hk.
    + split; [discriminate|]. intros [Hall _]. inversion Hall as [|? ? Hd _]; subst.
      apply disjoint_intersection_L in Hd. rewrite Hd, size_empty in Hnz.
      contradiction.
Qed.

(** X19. [ids_are_unique_across_keys] accepts the keys it is handed
    exactly when the code sets of any two of them are disjoint, and then
    returns them unchanged; a key with no code at all never makes it
    fail. *)
Theorem X19_unique_key_codes (values values' : list Key) :
  ids_are_unique_across_keys values = Ok values'
  <-> values' = values
      /\ List.ForallOrdPairs (fun a b => ids a ## ids b) values.
Proof.
  unfold ids_are_unique_across_keys.
  destruct (unique_from ∅ values) as [[]|e] eqn:E; simpl.
  - apply unique_from_iff in E as [_ Hp]. split.
    + intros [= <-]. now split.
    + now intros [-> _].
  - split; [discriminate|]. intros [_ Hp].
    assert (H : unique_from ∅ values = Ok tt).
    { apply unique_from_iff. split; [|exact Hp].
      apply Forall_forall. intros x _. apply disjoint_empty_l. }
    congruence.
Qed.

Lemma X19_unique_key_codes_witness :
  ids_are_unique_across_keys
    [mkKey {[113]} (Some "QUIT"%string); mkKey ∅ None; mkKey {[81; 83]} None]
  = Ok [mkKey {[113]} (Some "QUIT"%string); mkKey ∅ None; mkKey {[81; 83]} None]
  /\ (ids_are_unique_across_keys [mkKey {[81; 83]} None; mkKey {[83]} None]
      = Ok [mkKey {[81; 83]} None; mkKey {[83]} None] -> False).
Proof.
  split.
  - apply (proj2 (X19_unique_key_codes _ _)). split; [reflexivity|].
    repeat constructor; simpl; set_solver.
  - intros H. apply (proj1 (X19_unique_key_codes _ _)) in H as [_ H].
    inversion H as [|? ? Hk _]; subst. inversion Hk as [|? ? Hd _]; subst.
    simpl in Hd. set_solver.
Defined.





End ConfigProperties.
